(** * postfiat-sdk: the task-node state reducer

    A shallow embedding of [src/postfiat/nodes/task/state/__init__.py]:
    the four status enumerations, the [TaskState], [LogState],
    [AccountState], [NodeState] and [UserState] dataclasses with their
    [update] methods, and the properties of the reducer.

    Python objects are mutated in place; here every method takes the
    object's value and returns the value after the call.  The two
    [defaultdict]s are finite maps read through [getitem], which yields the
    default-constructed child when the key is absent.  [print] is modelled
    by the list of lines a call writes, and an exception by the [Raised]
    outcome, which keeps the state as mutated up to the raise. *)

From Stdlib Require Import ZArith List Bool Lia.
From stdpp Require Import gmap strings list fin_maps.

Local Open Scope Z_scope.

(** ** Outcomes of a call *)

Inductive exn : Type :=
| AttributeError (attr : string).

Inductive outcome (S : Type) : Type :=
| Returned (s : S)
| Raised (e : exn) (s : S).

Arguments Returned {S} s.
Arguments Raised {S} e s.

(** The object as the call left it, whether it returned or raised. *)
Definition state_of {S : Type} (o : outcome S) : S :=
  match o with
  | Returned s => s
  | Raised _ s => s
  end.

Definition returns {S : Type} (o : outcome S) : bool :=
  match o with
  | Returned _ => true
  | Raised _ _ => false
  end.

Definition outcome_map {S T : Type} (f : S -> T) (o : outcome S) : outcome T :=
  match o with
  | Returned s => Returned (f s)
  | Raised e s => Raised e (f s)
  end.

(** [d[k]] on a [defaultdict] whose factory builds [dflt]. *)
Definition getitem {V : Type} (dflt : V) (d : gmap string V) (k : string) : V :=
  default dflt (d !! k).

(** [sep.join(l)] *)
Fixpoint join (sep : string) (l : list string) : string :=
  match l with
  | [] => ""
  | [x] => x
  | x :: l => x +:+ sep +:+ join sep l
  end.

(** ** The message model

    Modelled from the spec: the module [postfiat.nodes.task.models.messages]
    is imported by the reducer but is not part of the sources.  The record
    below carries the fields the spec lists as consumed by the core (plus
    [hash], which the diagnostics print); the sixteen variants are the
    classes the reducer imports, each with the payload attribute the reducer
    reads from it.  [task_id] and [message_id] are optional as in the spec
    (required only for task scope, respectively for the two log variants);
    reading one that the message does not carry raises [AttributeError]. *)

Module Scope.
Inductive t : Type := TASK | ACCOUNT.
End Scope.

Module Direction.
Inductive t : Type := INBOUND | OUTBOUND.
End Direction.

(** A [decimal.Decimal]: the reducer only stores it. *)
Record Decimal : Type := mkDecimal { coefficient : Z; exponent : Z }.

Inductive Variant : Type :=
| UserGDocContextMessage (gdoc_context_link : string)
| UserInitiationRiteMessage
| UserLogMessage (message : string)
| NodeLogResponseMessage (message : string)
| NodeWalletFundingMessage
| NodeInitiationRewardMessage
| UserRequestMessage
| NodeProposalMessage (pft_offer : Decimal)
| UserAcceptanceMessage
| UserRefusalMessage
| UserCompletionMessage
| NodeChallengeMessage
| UserChallengeResponseMessage
| NodeRewardMessage (amount_pft : Decimal)
| UserSweepAddressMessage (sweep_address : string)
| NodeBlacklistMessage.

Record Message : Type := mkMessage {
  scope : Scope.t;
  direction : Direction.t;
  ledger_seq : Z;
  transaction_seq : Z;
  user_wallet : string;
  task_id : option string;
  message_id : option string;
  raw_data : string;
  hash : string;
  variant : Variant
}.

(** ** Status enumerations *)

Module AccountStatus.
Inductive t : Type := INVALID | PENDING | ACTIVE | BLACKLISTED.
#[global] Instance eq_dec : EqDecision t.
Proof. solve_decision. Defined.
End AccountStatus.

Module RiteStatus.
Inductive t : Type := INVALID | UNSTARTED | UNDERWAY | COMPLETE.
#[global] Instance eq_dec : EqDecision t.
Proof. solve_decision. Defined.
End RiteStatus.

Module TaskStatus.
Inductive t : Type :=
| INVALID | REQUESTED | PROPOSED | ACCEPTED | REFUSED
| COMPLETED | CHALLENGED | RESPONDED | REWARDED.
#[global] Instance eq_dec : EqDecision t.
Proof. solve_decision. Defined.
End TaskStatus.

Module LogStatus.
Inductive t : Type := INVALID | REQUESTED | RESPONDED.
#[global] Instance eq_dec : EqDecision t.
Proof. solve_decision. Defined.
End LogStatus.

(** ** TaskState *)

Module TaskState.

Record t : Type := mk {
  status : TaskStatus.t;
  pft_offered : option Decimal;
  pft_rewarded : option Decimal;
  message_history : list (Direction.t * string)
}.

Definition init : t := mk TaskStatus.INVALID None None [].

Definition set_status (self : t) (st : TaskStatus.t) : t :=
  mk st (pft_offered self) (pft_rewarded self) (message_history self).

Definition set_pft_offered (self : t) (d : Decimal) : t :=
  mk (status self) (Some d) (pft_rewarded self) (message_history self).

Definition set_pft_rewarded (self : t) (d : Decimal) : t :=
  mk (status self) (pft_offered self) (Some d) (message_history self).

Definition append_history (self : t) (msg : Message) : t :=
  mk (status self) (pft_offered self) (pft_rewarded self)
     (message_history self ++ [(direction msg, raw_data msg)]).

Definition update (self : t) (msg : Message) : t :=
  let self := append_history self msg in
  match variant msg with
  | UserRequestMessage =>
      if decide (status self = TaskStatus.INVALID)
      then set_status self TaskStatus.REQUESTED else self
  | NodeProposalMessage pft_offer =>
      if decide (status self = TaskStatus.REQUESTED)
      then set_pft_offered (set_status self TaskStatus.PROPOSED) pft_offer
      else self
  | UserAcceptanceMessage =>
      if decide (status self = TaskStatus.PROPOSED)
      then set_status self TaskStatus.ACCEPTED else self
  | UserRefusalMessage =>
      if bool_decide (status self ∈
           [TaskStatus.PROPOSED; TaskStatus.ACCEPTED;
            TaskStatus.COMPLETED; TaskStatus.CHALLENGED])
      then set_status self TaskStatus.REFUSED else self
  | UserCompletionMessage =>
      if decide (status self = TaskStatus.ACCEPTED)
      then set_status self TaskStatus.COMPLETED else self
  | NodeChallengeMessage =>
      if decide (status self = TaskStatus.COMPLETED)
      then set_status self TaskStatus.CHALLENGED else self
  | UserChallengeResponseMessage =>
      if decide (status self = TaskStatus.CHALLENGED)
      then set_status self TaskStatus.RESPONDED else self
  | NodeRewardMessage amount_pft =>
      if decide (status self = TaskStatus.RESPONDED)
      then set_pft_rewarded (set_status self TaskStatus.REWARDED) amount_pft
      else self
  | _ => self
  end.

(** [data()]: one line per history entry.  [linesep] is [os.linesep] and
    [str_direction] the text an f-string gives for a [Direction], which
    the message module defines. *)
Definition data (linesep : string) (str_direction : Direction.t -> string)
    (self : t) : string :=
  join linesep
    (map (fun '(direction, data) => str_direction direction +:+ ": " +:+ data)
         (message_history self)).

End TaskState.

(** ** LogState *)

Module LogState.

Record t : Type := mk {
  status : LogStatus.t;
  request : option string;
  response : option string
}.

Definition init : t := mk LogStatus.INVALID None None.

Definition update (self : t) (msg : Message) : t :=
  match variant msg with
  | UserLogMessage message =>
      mk LogStatus.REQUESTED (Some message) (response self)
  | NodeLogResponseMessage message =>
      mk LogStatus.RESPONDED (request self) (Some message)
  | _ => self
  end.

End LogState.

(** ** AccountState *)

Module AccountState.

Record t : Type := mk {
  init_rite_status : RiteStatus.t;
  context_doc_link : option string;
  sweep_address : option string;
  is_blacklisted : bool;
  tasks : gmap string TaskState.t;
  logs : gmap string LogState.t;
  account_message_history : list (Direction.t * string)
}.

Definition init : t := mk RiteStatus.UNSTARTED None None false ∅ ∅ [].

Definition status (self : t) : AccountStatus.t :=
  if is_blacklisted self then AccountStatus.BLACKLISTED
  else if negb (bool_decide (init_rite_status self = RiteStatus.COMPLETE))
          || negb (bool_decide (is_Some (context_doc_link self)))
  then AccountStatus.PENDING
  else AccountStatus.ACTIVE.

Definition append_history (self : t) (msg : Message) : t :=
  mk (init_rite_status self) (context_doc_link self) (sweep_address self)
     (is_blacklisted self) (tasks self) (logs self)
     (account_message_history self ++ [(direction msg, raw_data msg)]).

Definition set_init_rite_status (self : t) (r : RiteStatus.t) : t :=
  mk r (context_doc_link self) (sweep_address self)
     (is_blacklisted self) (tasks self) (logs self)
     (account_message_history self).

Definition set_context_doc_link (self : t) (l : string) : t :=
  mk (init_rite_status self) (Some l) (sweep_address self)
     (is_blacklisted self) (tasks self) (logs self)
     (account_message_history self).

Definition set_sweep_address (self : t) (a : string) : t :=
  mk (init_rite_status self) (context_doc_link self) (Some a)
     (is_blacklisted self) (tasks self) (logs self)
     (account_message_history self).

Definition set_is_blacklisted (self : t) (b : bool) : t :=
  mk (init_rite_status self) (context_doc_link self) (sweep_address self)
     b (tasks self) (logs self) (account_message_history self).

Definition set_tasks (self : t) (ts : gmap string TaskState.t) : t :=
  mk (init_rite_status self) (context_doc_link self) (sweep_address self)
     (is_blacklisted self) ts (logs self) (account_message_history self).

Definition set_logs (self : t) (ls : gmap string LogState.t) : t :=
  mk (init_rite_status self) (context_doc_link self) (sweep_address self)
     (is_blacklisted self) (tasks self) ls (account_message_history self).

(** [self.tasks[msg.task_id].update(msg)] *)
Definition update_task (self : t) (msg : Message) : outcome t :=
  match task_id msg with
  | None => Raised (AttributeError "task_id") self
  | Some tid =>
      Returned (set_tasks self
        (<[tid := TaskState.update (getitem TaskState.init (tasks self) tid) msg]>
           (tasks self)))
  end.

(** [self.logs[msg.message_id].update(msg)] *)
Definition update_log (self : t) (msg : Message) : outcome t :=
  match message_id msg with
  | None => Raised (AttributeError "message_id") self
  | Some mid =>
      Returned (set_logs self
        (<[mid := LogState.update (getitem LogState.init (logs self) mid) msg]>
           (logs self)))
  end.

Definition update (self : t) (msg : Message) : outcome t :=
  let status := status self in
  if decide (status = AccountStatus.BLACKLISTED) then Returned self
  else
    let self := append_history self msg in
    match scope msg with
    | Scope.TASK =>
        if decide (status = AccountStatus.ACTIVE)
        then update_task self msg
        else Returned self
    | Scope.ACCOUNT =>
        match variant msg with
        | UserGDocContextMessage gdoc_context_link =>
            Returned (set_context_doc_link self gdoc_context_link)
        | UserLogMessage _ | NodeLogResponseMessage _ =>
            if decide (status = AccountStatus.ACTIVE)
            then update_log self msg
            else Returned self
        | UserInitiationRiteMessage =>
            if decide (init_rite_status self = RiteStatus.UNSTARTED)
            then Returned (set_init_rite_status self RiteStatus.UNDERWAY)
            else Returned self
        | NodeWalletFundingMessage => Returned self
        | NodeInitiationRewardMessage =>
            if decide (init_rite_status self = RiteStatus.UNDERWAY)
            then Returned (set_init_rite_status self RiteStatus.COMPLETE)
            else Returned self
        | UserSweepAddressMessage sweep_address =>
            Returned (set_sweep_address self sweep_address)
        | NodeBlacklistMessage => Returned (set_is_blacklisted self true)
        | _ => Returned self
        end
    end.

Definition data (linesep : string) (str_direction : Direction.t -> string)
    (self : t) : string :=
  join linesep
    (map (fun '(direction, data) => str_direction direction +:+ ": " +:+ data)
         (account_message_history self)).

(** The outcomes of a series of [update] calls, each on the account as
    the previous call left it. *)
Fixpoint updates (self : t) (msgs : list Message) : list (outcome t) :=
  match msgs with
  | [] => []
  | msg :: msgs =>
      let r := update self msg in r :: updates (state_of r) msgs
  end.

End AccountState.

(** ** The ledger position and its order *)

Definition position : Type := (Z * Z)%type.

Definition msg_position (msg : Message) : position :=
  (ledger_seq msg, transaction_seq msg).

(** Lexicographic order on (ledger sequence, transaction sequence). *)
Definition lex_lt (a b : position) : Prop :=
  a.1 < b.1 \/ (a.1 = b.1 /\ a.2 < b.2).

Definition lex_le (a b : position) : Prop := a = b \/ lex_lt a b.

(** ** NodeState *)

Module NodeState.

Record t : Type := mk {
  accounts : gmap string AccountState.t;
  latest_ledger_seq : position
}.

Definition init : t := mk ∅ (0, 0).

Definition __update_latest_ledger_seq (self : t) (msg : Message)
  : list string * t :=
  let '(latest_ledger_seq, latest_txn_seq) := latest_ledger_seq self in
  if (ledger_seq msg >? latest_ledger_seq)
     || ((ledger_seq msg =? latest_ledger_seq)
         && (transaction_seq msg >? latest_txn_seq))
  then ([], mk (accounts self) (ledger_seq msg, transaction_seq msg))
  else if (ledger_seq msg =? latest_ledger_seq)
          && (transaction_seq msg =? latest_txn_seq)
  then (["duplicate ledger seq for msg " +:+ hash msg], self)
  else (["out of order ledger seq for msg " +:+ hash msg], self).

(** [self.accounts[w]], which on a [defaultdict] never fails. *)
Definition account (self : t) (w : string) : AccountState.t :=
  getitem AccountState.init (accounts self) w.

Definition set_account (self : t) (w : string) (a : AccountState.t) : t :=
  mk (<[w := a]> (accounts self)) (latest_ledger_seq self).

Definition update (self : t) (msg : Message) : list string * outcome t :=
  let '(printed, self) := __update_latest_ledger_seq self msg in
  (printed,
   outcome_map (set_account self (user_wallet msg))
     (AccountState.update (account self (user_wallet msg)) msg)).

(** The calls of a series of [update]s, each on the object as the
    previous call left it: what each printed and how it ended. *)
Fixpoint updates (self : t) (msgs : list Message)
  : list (list string * outcome t) :=
  match msgs with
  | [] => []
  | msg :: msgs =>
      let r := update self msg in r :: updates (state_of r.2) msgs
  end.

End NodeState.

(** ** UserState *)

Module UserState.

Record t : Type := mk {
  node_account : AccountState.t;
  latest_ledger_seq : position
}.

Definition init : t := mk AccountState.init (0, 0).

Definition __update_latest_ledger_seq (self : t) (msg : Message)
  : list string * t :=
  let '(latest_ledger_seq, latest_txn_seq) := latest_ledger_seq self in
  if (ledger_seq msg >? latest_ledger_seq)
     || ((ledger_seq msg =? latest_ledger_seq)
         && (transaction_seq msg >? latest_txn_seq))
  then ([], mk (node_account self) (ledger_seq msg, transaction_seq msg))
  else if (ledger_seq msg =? latest_ledger_seq)
          && (transaction_seq msg =? latest_txn_seq)
  then (["duplicate ledger seq for msg " +:+ hash msg], self)
  else (["out of order ledger seq for msg " +:+ hash msg], self).

Definition set_node_account (self : t) (a : AccountState.t) : t :=
  mk a (latest_ledger_seq self).

Definition update (self : t) (msg : Message) : list string * outcome t :=
  let '(printed, self) := __update_latest_ledger_seq self msg in
  (printed,
   outcome_map (set_node_account self)
     (AccountState.update (node_account self) msg)).

Fixpoint updates (self : t) (msgs : list Message)
  : list (list string * outcome t) :=
  match msgs with
  | [] => []
  | msg :: msgs =>
      let r := update self msg in r :: updates (state_of r.2) msgs
  end.

End UserState.

(** * Reference definitions for the properties *)

(** The transition table as the specification documents it: the status a
    variant leads to, and the statuses it may be applied in. *)
Definition target_status (v : Variant) : option TaskStatus.t :=
  match v with
  | UserRequestMessage => Some TaskStatus.REQUESTED
  | NodeProposalMessage _ => Some TaskStatus.PROPOSED
  | UserAcceptanceMessage => Some TaskStatus.ACCEPTED
  | UserRefusalMessage => Some TaskStatus.REFUSED
  | UserCompletionMessage => Some TaskStatus.COMPLETED
  | NodeChallengeMessage => Some TaskStatus.CHALLENGED
  | UserChallengeResponseMessage => Some TaskStatus.RESPONDED
  | NodeRewardMessage _ => Some TaskStatus.REWARDED
  | _ => None
  end.

Definition legal_source (v : Variant) (s : TaskStatus.t) : bool :=
  match v, s with
  | UserRequestMessage, TaskStatus.INVALID => true
  | NodeProposalMessage _, TaskStatus.REQUESTED => true
  | UserAcceptanceMessage, TaskStatus.PROPOSED => true
  | UserRefusalMessage, TaskStatus.PROPOSED => true
  | UserRefusalMessage, TaskStatus.ACCEPTED => true
  | UserRefusalMessage, TaskStatus.COMPLETED => true
  | UserRefusalMessage, TaskStatus.CHALLENGED => true
  | UserCompletionMessage, TaskStatus.ACCEPTED => true
  | NodeChallengeMessage, TaskStatus.COMPLETED => true
  | UserChallengeResponseMessage, TaskStatus.CHALLENGED => true
  | NodeRewardMessage _, TaskStatus.RESPONDED => true
  | _, _ => false
  end.

(** The status the table prescribes after a message of variant [v] in
    status [s]. *)
Definition documented_status (v : Variant) (s : TaskStatus.t) : TaskStatus.t :=
  match target_status v with
  | Some t => if legal_source v s then t else s
  | None => s
  end.

(** The decision table of the specification over the three fields. *)
Definition status_of_fields (blacklisted : bool) (rite : RiteStatus.t)
    (link : option string) : AccountStatus.t :=
  match blacklisted, rite, link with
  | true, _, _ => AccountStatus.BLACKLISTED
  | false, RiteStatus.COMPLETE, Some _ => AccountStatus.ACTIVE
  | false, _, _ => AccountStatus.PENDING
  end.


(** The ordering check on its own: from the stored position and a message,
    the lines printed and the position stored afterwards. *)
Definition advance_ledger_seq (latest : position) (msg : Message)
  : list string * position :=
  let '(latest_ledger_seq, latest_txn_seq) := latest in
  if (ledger_seq msg >? latest_ledger_seq)
     || ((ledger_seq msg =? latest_ledger_seq)
         && (transaction_seq msg >? latest_txn_seq))
  then ([], (ledger_seq msg, transaction_seq msg))
  else if (ledger_seq msg =? latest_ledger_seq)
          && (transaction_seq msg =? latest_txn_seq)
  then (["duplicate ledger seq for msg " +:+ hash msg], latest)
  else (["out of order ledger seq for msg " +:+ hash msg], latest).

(** The stored positions of a run never step back: each one equals the one
    before it or is strictly greater. *)
Fixpoint nondecreasing (prev : position) (l : list position) : Prop :=
  match l with
  | [] => True
  | p :: l => (p = prev \/ lex_lt prev p) /\ nondecreasing p l
  end.

(** The two log variants, routed by message identifier. *)
Definition is_log_variant (v : Variant) : bool :=
  match v with
  | UserLogMessage _ | NodeLogResponseMessage _ => true
  | _ => false
  end.

(** A message carries the identifiers its scope and variant require: a task
    identifier when its scope is TASK, a message identifier when it is a log
    request or response. *)
Definition well_formed (msg : Message) : bool :=
  match scope msg with
  | Scope.TASK => bool_decide (is_Some (task_id msg))
  | Scope.ACCOUNT =>
      implb (is_log_variant (variant msg))
            (bool_decide (is_Some (message_id msg)))
  end.

(** The guards of the two branches of [TaskState.update] that assign an
    amount field, and how often a run takes each branch. *)
Definition assigns_pft_offered (self : TaskState.t) (msg : Message) : bool :=
  match variant msg with
  | NodeProposalMessage _ =>
      bool_decide (TaskState.status self = TaskStatus.REQUESTED)
  | _ => false
  end.

Definition assigns_pft_rewarded (self : TaskState.t) (msg : Message) : bool :=
  match variant msg with
  | NodeRewardMessage _ =>
      bool_decide (TaskState.status self = TaskStatus.RESPONDED)
  | _ => false
  end.

Fixpoint count_assignments (assigns : TaskState.t -> Message -> bool)
    (self : TaskState.t) (msgs : list Message) : nat :=
  match msgs with
  | [] => 0%nat
  | msg :: msgs =>
      ((if assigns self msg then 1 else 0)
       + count_assignments assigns (TaskState.update self msg) msgs)%nat
  end.

(** How many assignments of an amount a task in a given status can still
    see: the offer is assigned on leaving REQUESTED, which is entered only
    from INVALID; the reward on entering REWARDED, which is never left. *)
Definition offer_budget (st : TaskStatus.t) : nat :=
  match st with
  | TaskStatus.INVALID | TaskStatus.REQUESTED => 1%nat
  | _ => 0%nat
  end.

Definition reward_budget (st : TaskStatus.t) : nat :=
  match st with
  | TaskStatus.REWARDED => 0%nat
  | _ => 1%nat
  end.

(** The single-account view of a node's state: the account it holds for
    wallet [w] and its stored position, as a [UserState]. *)
Definition user_view (w : string) (n : NodeState.t) : UserState.t :=
  UserState.mk (NodeState.account n w) (NodeState.latest_ledger_seq n).

(** ** Sample data *)

Definition active_account : AccountState.t :=
  AccountState.mk RiteStatus.COMPLETE (Some "doc://x") None false ∅ ∅ [].

Definition request_msg : Message :=
  mkMessage Scope.TASK Direction.INBOUND 5 1 "rUser" (Some "T1") None
    "request" "H1" UserRequestMessage.


Definition proposal_msg : Message :=
  mkMessage Scope.TASK Direction.OUTBOUND 5 2 "rUser" (Some "T1") None
    "proposal" "H2" (NodeProposalMessage (mkDecimal 42 0)).

Definition stale_msg : Message :=
  mkMessage Scope.ACCOUNT Direction.OUTBOUND 4 7 "rUser" None None
    "funding" "H0" NodeWalletFundingMessage.

Definition blacklisted_account : AccountState.t :=
  AccountState.mk RiteStatus.COMPLETE (Some "doc://x") None true ∅ ∅ [].

(** A node that has accepted position (5, 2) and holds no account yet. *)
Definition node_at_5_2 : NodeState.t := NodeState.mk ∅ (5, 2).

Definition user_at_5_2 : UserState.t := UserState.mk AccountState.init (5, 2).

Definition rite_start_msg : Message :=
  mkMessage Scope.ACCOUNT Direction.INBOUND 1 0 "rUser" None None
    "rite" "H3" UserInitiationRiteMessage.

Definition context_msg : Message :=
  mkMessage Scope.ACCOUNT Direction.INBOUND 2 0 "rUser" None None
    "context" "H4" (UserGDocContextMessage "doc://x").

Definition rite_reward_msg : Message :=
  mkMessage Scope.ACCOUNT Direction.OUTBOUND 3 0 "rUser" None None
    "reward" "H5" NodeInitiationRewardMessage.

(** A task-scoped message that carries no task identifier. *)
Definition anonymous_task_msg : Message :=
  mkMessage Scope.TASK Direction.INBOUND 6 0 "rUser" None None
    "request" "H6" UserRequestMessage.

(** ** Runs and measures for the further properties *)

(** A series of calls, each on the object as the previous call left it,
    whether that call returned or raised. *)
Definition account_run (self : AccountState.t) (msgs : list Message)
  : AccountState.t :=
  fold_left (fun a msg => state_of (AccountState.update a msg)) msgs self.

Definition node_run (self : NodeState.t) (msgs : list Message) : NodeState.t :=
  fold_left (fun n msg => state_of (NodeState.update n msg).2) msgs self.

Definition user_run (self : UserState.t) (msgs : list Message) : UserState.t :=
  fold_left (fun u msg => state_of (UserState.update u msg).2) msgs self.

(** How far a task has got in its life cycle; REFUSED, which can be entered
    from four statuses and is never left, counts as furthest. *)
Definition task_rank (st : TaskStatus.t) : nat :=
  match st with
  | TaskStatus.INVALID => 0
  | TaskStatus.REQUESTED => 1
  | TaskStatus.PROPOSED => 2
  | TaskStatus.ACCEPTED => 3
  | TaskStatus.COMPLETED => 4
  | TaskStatus.CHALLENGED => 5
  | TaskStatus.RESPONDED => 6
  | TaskStatus.REWARDED => 7
  | TaskStatus.REFUSED => 8
  end%nat.

Definition rite_rank (r : RiteStatus.t) : nat :=
  match r with
  | RiteStatus.INVALID => 0
  | RiteStatus.UNSTARTED => 1
  | RiteStatus.UNDERWAY => 2
  | RiteStatus.COMPLETE => 3
  end%nat.

(** The amounts a task holds match its status: an offer from PROPOSED on,
    a reward exactly in REWARDED. *)
Definition amounts_match_status (self : TaskState.t) : Prop :=
  (TaskState.pft_offered self = None
   <-> TaskState.status self = TaskStatus.INVALID
       \/ TaskState.status self = TaskStatus.REQUESTED)
  /\ (TaskState.pft_rewarded self = None
      <-> TaskState.status self <> TaskStatus.REWARDED).

(** The texts a log holds match its status. *)
Definition texts_match_status (self : LogState.t) : Prop :=
  match LogState.status self with
  | LogStatus.INVALID =>
      LogState.request self = None /\ LogState.response self = None
  | LogStatus.REQUESTED => is_Some (LogState.request self)
  | LogStatus.RESPONDED => is_Some (LogState.response self)
  end.

(** The greater of two positions in lexicographic order. *)
Definition lex_ltb (a b : position) : bool :=
  (a.1 <? b.1) || ((a.1 =? b.1) && (a.2 <? b.2)).

Definition lex_max (a b : position) : position :=
  if lex_ltb a b then b else a.

(** The diagnostic lines of the ordering check. *)
Definition duplicate_line (msg : Message) : string :=
  "duplicate ledger seq for msg " +:+ hash msg.

Definition out_of_order_line (msg : Message) : string :=
  "out of order ledger seq for msg " +:+ hash msg.

(** The history entry a message leaves. *)
Definition history_entry (msg : Message) : Direction.t * string :=
  (direction msg, raw_data msg).

Definition is_blacklist_msg (msg : Message) : bool :=
  match scope msg, variant msg with
  | Scope.ACCOUNT, NodeBlacklistMessage => true
  | _, _ => false
  end.

Definition log_request_msg : Message :=
  mkMessage Scope.ACCOUNT Direction.INBOUND 7 0 "rUser" None (Some "L1")
    "log" "H7" (UserLogMessage "what next?").

Definition other_wallet_msg : Message :=
  mkMessage Scope.ACCOUNT Direction.INBOUND 8 0 "rOther" None None
    "rite" "H8" UserInitiationRiteMessage.

Definition proposed_task : TaskState.t :=
  TaskState.mk TaskStatus.PROPOSED (Some (mkDecimal 42 0)) None
    [(Direction.INBOUND, "request"); (Direction.OUTBOUND, "proposal")].

Definition blacklisting_node : NodeState.t :=
  NodeState.mk {[ "rUser" := blacklisted_account ]} (5, 2).

(** The same message addressed to another wallet. *)
Definition with_user_wallet (w : string) (msg : Message) : Message :=
  mkMessage (scope msg) (direction msg) (ledger_seq msg) (transaction_seq msg)
    w (task_id msg) (message_id msg) (raw_data msg) (hash msg) (variant msg).
(** * Properties *)

(** ** Task transitions *)

Lemma task_update_history (self : TaskState.t) (msg : Message) :
  TaskState.message_history (TaskState.update self msg)
  = TaskState.message_history self ++ [(direction msg, raw_data msg)].
Proof.
  unfold TaskState.update.
  destruct (variant msg); simpl; try reflexivity;
    try (destruct (decide _); reflexivity).
  destruct (bool_decide _); reflexivity.
Qed.

Lemma task_update_status (self : TaskState.t) (msg : Message) :
  TaskState.status (TaskState.update self msg)
  = documented_status (variant msg) (TaskState.status self).
Proof.
  destruct self as [st off rew hist].
  unfold TaskState.update, documented_status.
  destruct (variant msg); destruct st; reflexivity.
Qed.

(** C4: for every status and every variant, [TaskState.update] leads to the
    documented target status when the current status is a legal source of
    the variant and keeps the status otherwise; the history grows by exactly
    one entry in both cases. *)
Theorem task_transition_legality (self : TaskState.t) (msg : Message) :
  TaskState.status (TaskState.update self msg)
  = match target_status (variant msg) with
    | Some target =>
        if legal_source (variant msg) (TaskState.status self)
        then target else TaskState.status self
    | None => TaskState.status self
    end
  /\ length (TaskState.message_history (TaskState.update self msg))
     = S (length (TaskState.message_history self)).
Proof.
  split.
  - apply task_update_status.
  - rewrite task_update_history, length_app. simpl. lia.
Qed.

(** ** Derived account status *)

(** C8: [status()] is a function of the blacklist flag, the rite status and
    the context link alone: BLACKLISTED when the flag is set, otherwise
    PENDING when the rite is not COMPLETE or the link is absent, otherwise
    ACTIVE.  As a function from the account to a status it has no effect on
    the account. *)
Theorem account_status_pure (self : AccountState.t) :
  AccountState.status self
  = status_of_fields (AccountState.is_blacklisted self)
      (AccountState.init_rite_status self)
      (AccountState.context_doc_link self)
  /\ AccountState.status self
     = (if AccountState.is_blacklisted self then AccountStatus.BLACKLISTED
        else if bool_decide
                  (AccountState.init_rite_status self <> RiteStatus.COMPLETE
                   \/ AccountState.context_doc_link self = None)
        then AccountStatus.PENDING
        else AccountStatus.ACTIVE).
Proof.
  destruct self as [rite link sweep bl ts ls hist].
  unfold AccountState.status; simpl.
  destruct bl, rite, link; split; reflexivity.
Qed.

(** ** Blacklisting *)

(** C5: on an account whose blacklist flag is set, [update] returns at once
    and leaves the account as it was, children and histories included, for
    every message; hence so does every series of calls, and the flag stays
    set. *)
Theorem blacklist_irreversible (self : AccountState.t) (msgs : list Message) :
  AccountState.is_blacklisted self = true ->
  (forall msg, AccountState.update self msg = Returned self)
  /\ Forall (fun r => r = Returned self) (AccountState.updates self msgs)
  /\ Forall (fun r => AccountState.is_blacklisted (state_of r) = true)
       (AccountState.updates self msgs).
Proof.
  intros Hbl.
  assert (Hstep : forall msg, AccountState.update self msg = Returned self).
  { intros msg. unfold AccountState.update, AccountState.status.
    rewrite Hbl. reflexivity. }
  split; [exact Hstep|].
  split; induction msgs as [|msg msgs IH]; simpl; constructor;
    rewrite ?Hstep; simpl; auto.
Qed.

(** ** The stored ledger position *)

Lemma advance_ledger_seq_le (latest : position) (msg : Message) :
  (advance_ledger_seq latest msg).2 = latest
  \/ lex_lt latest (advance_ledger_seq latest msg).2.
Proof.
  destruct latest as [l t]. unfold advance_ledger_seq, lex_lt.
  destruct (ledger_seq msg >? l) eqn:Hl; simpl.
  - right. simpl. lia.
  - destruct ((ledger_seq msg =? l) && (transaction_seq msg >? t)) eqn:Ht;
      simpl.
    + right. apply andb_true_iff in Ht. simpl. lia.
    + destruct ((ledger_seq msg =? l) && (transaction_seq msg =? t));
        left; reflexivity.
Qed.

Lemma node_ledger_seq_advance (self : NodeState.t) (msg : Message) :
  NodeState.__update_latest_ledger_seq self msg
  = ((advance_ledger_seq (NodeState.latest_ledger_seq self) msg).1,
     NodeState.mk (NodeState.accounts self)
       (advance_ledger_seq (NodeState.latest_ledger_seq self) msg).2).
Proof.
  destruct self as [accts [l t]].
  unfold NodeState.__update_latest_ledger_seq, advance_ledger_seq. simpl.
  destruct (_ || _); [reflexivity|].
  destruct (_ && _); reflexivity.
Qed.

Lemma user_ledger_seq_advance (self : UserState.t) (msg : Message) :
  UserState.__update_latest_ledger_seq self msg
  = ((advance_ledger_seq (UserState.latest_ledger_seq self) msg).1,
     UserState.mk (UserState.node_account self)
       (advance_ledger_seq (UserState.latest_ledger_seq self) msg).2).
Proof.
  destruct self as [acct [l t]].
  unfold UserState.__update_latest_ledger_seq, advance_ledger_seq. simpl.
  destruct (_ || _); [reflexivity|].
  destruct (_ && _); reflexivity.
Qed.

Lemma node_update_unfold (n : NodeState.t) (msg : Message) :
  NodeState.update n msg
  = let n' := NodeState.mk (NodeState.accounts n)
                (advance_ledger_seq (NodeState.latest_ledger_seq n) msg).2 in
    ((advance_ledger_seq (NodeState.latest_ledger_seq n) msg).1,
     outcome_map (NodeState.set_account n' (user_wallet msg))
       (AccountState.update (NodeState.account n' (user_wallet msg)) msg)).
Proof.
  unfold NodeState.update. rewrite node_ledger_seq_advance. reflexivity.
Qed.

Lemma user_update_unfold (u : UserState.t) (msg : Message) :
  UserState.update u msg
  = let u' := UserState.mk (UserState.node_account u)
                (advance_ledger_seq (UserState.latest_ledger_seq u) msg).2 in
    ((advance_ledger_seq (UserState.latest_ledger_seq u) msg).1,
     outcome_map (UserState.set_node_account u')
       (AccountState.update (UserState.node_account u') msg)).
Proof.
  unfold UserState.update. rewrite user_ledger_seq_advance. reflexivity.
Qed.

Lemma node_update_latest (self : NodeState.t) (msg : Message) :
  NodeState.latest_ledger_seq (state_of (NodeState.update self msg).2)
  = (advance_ledger_seq (NodeState.latest_ledger_seq self) msg).2.
Proof.
  rewrite node_update_unfold. simpl.
  destruct (AccountState.update _ msg); reflexivity.
Qed.

Lemma user_update_latest (self : UserState.t) (msg : Message) :
  UserState.latest_ledger_seq (state_of (UserState.update self msg).2)
  = (advance_ledger_seq (UserState.latest_ledger_seq self) msg).2.
Proof.
  rewrite user_update_unfold. simpl.
  destruct (AccountState.update _ msg); reflexivity.
Qed.

(** C3: along every series of [update] calls on a [NodeState] or on a
    [UserState], the stored (ledger_seq, transaction_seq) pair after each
    call equals the pair before it or is strictly greater in lexicographic
    order. *)
Theorem watermark_monotone (msgs : list Message) :
  (forall n : NodeState.t,
     nondecreasing (NodeState.latest_ledger_seq n)
       (map (fun r => NodeState.latest_ledger_seq (state_of r.2))
            (NodeState.updates n msgs)))
  /\ (forall u : UserState.t,
        nondecreasing (UserState.latest_ledger_seq u)
          (map (fun r => UserState.latest_ledger_seq (state_of r.2))
               (UserState.updates u msgs))).
Proof.
  split; induction msgs as [|msg msgs IH]; intros s; simpl; auto; split.
  - rewrite node_update_latest. apply advance_ledger_seq_le.
  - apply IH.
  - rewrite user_update_latest. apply advance_ledger_seq_le.
  - apply IH.
Qed.

(** ** Gating of child updates by the derived status *)

Lemma status_not_blacklisted (self : AccountState.t) :
  AccountState.is_blacklisted self = false ->
  AccountState.status self = AccountStatus.ACTIVE
  \/ AccountState.status self = AccountStatus.PENDING.
Proof.
  intros Hbl. unfold AccountState.status. rewrite Hbl.
  destruct (negb _ || negb _); auto.
Qed.

(** C6: on an account that is not blacklisted, a task-scoped message (with
    its task identifier [tid]) or a log request/response (with its message
    identifier [mid]) always returns, adds exactly the entry
    (direction, raw_data) at the end of the account history and leaves the
    rite status, the context link, the sweep address and the flag alone.
    When the derived status is ACTIVE the message is handed to the child
    stored under that identifier, created on first use: the task's own
    history gains the entry (so the task differs from what was stored), the
    log takes the status and text of the message; the children of the other
    kind are untouched.  When the status is not ACTIVE, which then means
    PENDING, both child maps stay exactly as they were. *)
Theorem account_gating (self : AccountState.t) (msg : Message) :
  AccountState.is_blacklisted self = false ->
  (forall tid, scope msg = Scope.TASK -> task_id msg = Some tid ->
     let self' := state_of (AccountState.update self msg) in
     let old := default TaskState.init (AccountState.tasks self !! tid) in
     returns (AccountState.update self msg) = true
     /\ AccountState.account_message_history self'
        = AccountState.account_message_history self
          ++ [(direction msg, raw_data msg)]
     /\ AccountState.init_rite_status self' = AccountState.init_rite_status self
     /\ AccountState.context_doc_link self' = AccountState.context_doc_link self
     /\ AccountState.sweep_address self' = AccountState.sweep_address self
     /\ AccountState.is_blacklisted self' = false
     /\ AccountState.logs self' = AccountState.logs self
     /\ (AccountState.status self = AccountStatus.ACTIVE ->
         AccountState.update self msg
         = Returned (AccountState.set_tasks (AccountState.append_history self msg)
             (<[tid := TaskState.update
                         (getitem TaskState.init (AccountState.tasks self) tid) msg]>
                (AccountState.tasks self)))
         /\ AccountState.tasks self'
            = <[tid := TaskState.update old msg]> (AccountState.tasks self)
         /\ AccountState.tasks self' !! tid <> AccountState.tasks self !! tid
         /\ (exists child, AccountState.tasks self' !! tid = Some child
               /\ TaskState.message_history child
                  = TaskState.message_history old
                    ++ [(direction msg, raw_data msg)]))
     /\ (AccountState.status self <> AccountStatus.ACTIVE ->
         AccountState.status self = AccountStatus.PENDING
         /\ AccountState.update self msg
            = Returned (AccountState.append_history self msg)
         /\ AccountState.tasks self' = AccountState.tasks self))
  /\ (forall mid, scope msg = Scope.ACCOUNT ->
        is_log_variant (variant msg) = true -> message_id msg = Some mid ->
        let self' := state_of (AccountState.update self msg) in
        let old := default LogState.init (AccountState.logs self !! mid) in
        returns (AccountState.update self msg) = true
        /\ AccountState.account_message_history self'
           = AccountState.account_message_history self
             ++ [(direction msg, raw_data msg)]
        /\ AccountState.init_rite_status self'
           = AccountState.init_rite_status self
        /\ AccountState.context_doc_link self'
           = AccountState.context_doc_link self
        /\ AccountState.sweep_address self' = AccountState.sweep_address self
        /\ AccountState.is_blacklisted self' = false
        /\ AccountState.tasks self' = AccountState.tasks self
        /\ (AccountState.status self = AccountStatus.ACTIVE ->
            AccountState.update self msg
            = Returned (AccountState.set_logs (AccountState.append_history self msg)
                (<[mid := LogState.update
                            (getitem LogState.init (AccountState.logs self) mid) msg]>
                   (AccountState.logs self)))
            /\ AccountState.logs self'
               = <[mid := LogState.update old msg]> (AccountState.logs self)
            /\ (exists child, AccountState.logs self' !! mid = Some child
                  /\ (forall text, variant msg = UserLogMessage text ->
                        child = LogState.mk LogStatus.REQUESTED (Some text)
                                  (LogState.response old))
                  /\ (forall text, variant msg = NodeLogResponseMessage text ->
                        child = LogState.mk LogStatus.RESPONDED
                                  (LogState.request old) (Some text))))
        /\ (AccountState.status self <> AccountStatus.ACTIVE ->
            AccountState.status self = AccountStatus.PENDING
            /\ AccountState.update self msg
               = Returned (AccountState.append_history self msg)
            /\ AccountState.logs self' = AccountState.logs self)).
Proof.
  intros Hbl.
  pose proof (status_not_blacklisted self Hbl) as Hst.
  assert (Hnb : AccountState.status self <> AccountStatus.BLACKLISTED).
  { destruct Hst as [-> | ->]; discriminate. }
  split.
  - intros tid Hscope Htid self' old.
    assert (Hupd : AccountState.update self msg
                   = if decide (AccountState.status self = AccountStatus.ACTIVE)
                     then Returned
                            (AccountState.set_tasks
                               (AccountState.append_history self msg)
                               (<[tid := TaskState.update old msg]>
                                  (AccountState.tasks self)))
                     else Returned (AccountState.append_history self msg)).
    { unfold AccountState.update.
      destruct (decide (AccountState.status self = AccountStatus.BLACKLISTED));
        [contradiction|].
      rewrite Hscope. unfold AccountState.update_task. rewrite Htid.
      reflexivity. }
    subst self'. rewrite Hupd.
    destruct (decide (AccountState.status self = AccountStatus.ACTIVE))
      as [Hact|Hna]; simpl; rewrite ?Hbl;
      repeat (split; [reflexivity|]); split.
    + intros _. split; [reflexivity|]. split; [reflexivity|].
      rewrite lookup_insert_eq.
      assert (Hhist : TaskState.message_history (TaskState.update old msg)
                      = TaskState.message_history old
                        ++ [(direction msg, raw_data msg)])
        by apply task_update_history.
      split.
      * intros Heq. subst old.
        destruct (AccountState.tasks self !! tid) as [prev|] eqn:Hprev;
          [|discriminate].
        simpl in Heq, Hhist. injection Heq as Heq. rewrite Heq in Hhist.
        apply (f_equal length) in Hhist.
        rewrite length_app in Hhist. simpl in Hhist. lia.
      * exists (TaskState.update old msg). split; [reflexivity|exact Hhist].
    + intros Hna. contradiction.
    + intros Hact. contradiction.
    + intros _. destruct Hst as [Hst|Hst]; [contradiction|].
      repeat split; [exact Hst].
  - intros mid Hscope Hlog Hmid self' old.
    assert (Hupd : AccountState.update self msg
                   = if decide (AccountState.status self = AccountStatus.ACTIVE)
                     then Returned
                            (AccountState.set_logs
                               (AccountState.append_history self msg)
                               (<[mid := LogState.update old msg]>
                                  (AccountState.logs self)))
                     else Returned (AccountState.append_history self msg)).
    { unfold AccountState.update.
      destruct (decide (AccountState.status self = AccountStatus.BLACKLISTED));
        [contradiction|].
      rewrite Hscope. unfold AccountState.update_log.
      destruct (variant msg); try discriminate; rewrite Hmid; reflexivity. }
    subst self'. rewrite Hupd.
    destruct (decide (AccountState.status self = AccountStatus.ACTIVE))
      as [Hact|Hna]; simpl; rewrite ?Hbl;
      repeat (split; [reflexivity|]); split.
    + intros _. split; [reflexivity|]. split; [reflexivity|].
      rewrite lookup_insert_eq.
      exists (LogState.update old msg). split; [reflexivity|].
      unfold LogState.update.
      split; intros text Hv; rewrite Hv; reflexivity.
    + intros Hna. contradiction.
    + intros Hact. contradiction.
    + intros _. destruct Hst as [Hst|Hst]; [contradiction|].
      repeat split; [exact Hst].
Qed.

(** The gating theorem at an active account and a task request: the
    account history gains the entry and the task under T1 is no longer
    what was stored. *)
Lemma account_gating_witness :
  AccountState.account_message_history
    (state_of (AccountState.update active_account request_msg))
  = AccountState.account_message_history active_account
    ++ [(Direction.INBOUND, "request")]
  /\ AccountState.tasks
       (state_of (AccountState.update active_account request_msg)) !! "T1"
     <> AccountState.tasks active_account !! "T1".
Proof.
  destruct (account_gating active_account request_msg) as [Htask _].
  - reflexivity.
  - destruct (Htask "T1") as (_ & Hhist & _ & _ & _ & _ & _ & Hact & _).
    + reflexivity.
    + reflexivity.
    + split; [exact Hhist|].
      destruct Hact as (_ & _ & Hne & _).
      * reflexivity.
      * exact Hne.
Defined.

(** ** Totality on well-formed messages *)

Lemma account_update_returns (self : AccountState.t) (msg : Message) :
  well_formed msg = true ->
  returns (AccountState.update self msg) = true.
Proof.
  unfold well_formed, AccountState.update,
    AccountState.update_task, AccountState.update_log.
  intros Hwf.
  destruct (decide _); [reflexivity|].
  destruct (scope msg).
  - apply bool_decide_eq_true in Hwf. destruct Hwf as [tid ->].
    destruct (decide _); reflexivity.
  - destruct (variant msg); simpl in *;
      repeat (destruct (decide _)); try reflexivity;
      apply bool_decide_eq_true in Hwf; destruct Hwf as [mid ->];
      reflexivity.
Qed.

(** C9: on a well-formed message, [NodeState.update] and [UserState.update]
    return normally, whatever the variant, the ledger position and the
    current state. *)
Theorem update_total (msg : Message) :
  well_formed msg = true ->
  (forall n : NodeState.t, exists n',
      (NodeState.update n msg).2 = Returned n')
  /\ (forall u : UserState.t, exists u',
        (UserState.update u msg).2 = Returned u').
Proof.
  intros Hwf. split.
  - intros n. rewrite node_update_unfold. simpl.
    pose proof (account_update_returns
      (getitem AccountState.init (NodeState.accounts n) (user_wallet msg))
      msg Hwf) as Hret.
    unfold NodeState.account. simpl.
    destruct (AccountState.update _ msg); [eauto|discriminate].
  - intros u. rewrite user_update_unfold. simpl.
    pose proof (account_update_returns (UserState.node_account u) msg Hwf)
      as Hret.
    destruct (AccountState.update _ msg); [eauto|discriminate].
Qed.

Lemma update_total_witness :
  exists n', (NodeState.update NodeState.init request_msg).2 = Returned n'.
Proof.
  destruct (update_total request_msg) as [Hnode _].
  - reflexivity.
  - apply Hnode.
Defined.

Lemma blacklist_irreversible_witness :
  AccountState.update blacklisted_account request_msg
  = Returned blacklisted_account.
Proof.
  destruct (blacklist_irreversible blacklisted_account []) as [Hstep _].
  - reflexivity.
  - apply Hstep.
Defined.

(** ** Amount fields *)

Lemma offer_budget_step (self : TaskState.t) (msg : Message) :
  ((if assigns_pft_offered self msg then 1 else 0)
   + offer_budget (TaskState.status (TaskState.update self msg))
   <= offer_budget (TaskState.status self))%nat.
Proof.
  rewrite task_update_status. unfold assigns_pft_offered, documented_status.
  destruct (variant msg), (TaskState.status self); simpl; lia.
Qed.

Lemma reward_budget_step (self : TaskState.t) (msg : Message) :
  ((if assigns_pft_rewarded self msg then 1 else 0)
   + reward_budget (TaskState.status (TaskState.update self msg))
   <= reward_budget (TaskState.status self))%nat.
Proof.
  rewrite task_update_status. unfold assigns_pft_rewarded, documented_status.
  destruct (variant msg), (TaskState.status self); simpl; lia.
Qed.

Lemma count_offered_bound (msgs : list Message) (self : TaskState.t) :
  (count_assignments assigns_pft_offered self msgs
   <= offer_budget (TaskState.status self))%nat.
Proof.
  revert self. induction msgs as [|msg msgs IH]; intros self; simpl.
  - lia.
  - specialize (IH (TaskState.update self msg)).
    pose proof (offer_budget_step self msg). lia.
Qed.

Lemma count_rewarded_bound (msgs : list Message) (self : TaskState.t) :
  (count_assignments assigns_pft_rewarded self msgs
   <= reward_budget (TaskState.status self))%nat.
Proof.
  revert self. induction msgs as [|msg msgs IH]; intros self; simpl.
  - lia.
  - specialize (IH (TaskState.update self msg)).
    pose proof (reward_budget_step self msg). lia.
Qed.

Lemma task_update_amounts (self : TaskState.t) (msg : Message) :
  TaskState.pft_offered (TaskState.update self msg)
  = (if assigns_pft_offered self msg
     then match variant msg with
          | NodeProposalMessage pft_offer => Some pft_offer
          | _ => TaskState.pft_offered self
          end
     else TaskState.pft_offered self)
  /\ TaskState.pft_rewarded (TaskState.update self msg)
     = (if assigns_pft_rewarded self msg
        then match variant msg with
             | NodeRewardMessage amount_pft => Some amount_pft
             | _ => TaskState.pft_rewarded self
             end
        else TaskState.pft_rewarded self).
Proof.
  destruct self as [st off rew hist].
  unfold TaskState.update, assigns_pft_offered, assigns_pft_rewarded.
  destruct (variant msg), st; split; reflexivity.
Qed.

(** C7: [TaskState.update] writes [pft_offered] only in the branch that
    takes a task from REQUESTED to PROPOSED, with the amount of the proposal,
    and [pft_rewarded] only in the branch that takes it from RESPONDED to
    REWARDED, with the amount of the reward; every other call leaves both
    fields as they were.  Along any series of calls from the initial task,
    each of the two branches is taken at most once. *)
Theorem amounts_assigned_once (msgs : list Message) :
  (forall (self : TaskState.t) (msg : Message),
     (if assigns_pft_offered self msg
      then TaskState.status self = TaskStatus.REQUESTED
           /\ TaskState.status (TaskState.update self msg) = TaskStatus.PROPOSED
           /\ (exists pft_offer, variant msg = NodeProposalMessage pft_offer
                 /\ TaskState.pft_offered (TaskState.update self msg)
                    = Some pft_offer)
      else TaskState.pft_offered (TaskState.update self msg)
           = TaskState.pft_offered self)
     /\ (if assigns_pft_rewarded self msg
         then TaskState.status self = TaskStatus.RESPONDED
              /\ TaskState.status (TaskState.update self msg)
                 = TaskStatus.REWARDED
              /\ (exists amount_pft, variant msg = NodeRewardMessage amount_pft
                    /\ TaskState.pft_rewarded (TaskState.update self msg)
                       = Some amount_pft)
         else TaskState.pft_rewarded (TaskState.update self msg)
              = TaskState.pft_rewarded self))
  /\ (count_assignments assigns_pft_offered TaskState.init msgs <= 1)%nat
  /\ (count_assignments assigns_pft_rewarded TaskState.init msgs <= 1)%nat.
Proof.
  split; [|split].
  - intros self msg.
    destruct (task_update_amounts self msg) as [Hoff Hrew].
    pose proof (task_update_status self msg) as Hst.
    rewrite Hoff, Hrew, Hst. clear Hoff Hrew Hst.
    unfold assigns_pft_offered, assigns_pft_rewarded, documented_status.
    destruct (variant msg); simpl; try (split; reflexivity).
    + split; [|reflexivity].
      case_bool_decide as Hreq; [|reflexivity].
      rewrite Hreq. simpl. eauto.
    + split; [reflexivity|].
      case_bool_decide as Hresp; [|reflexivity].
      rewrite Hresp. simpl. eauto.
  - apply (count_offered_bound msgs TaskState.init).
  - apply (count_rewarded_bound msgs TaskState.init).
Qed.

(** ** Duplicate and stale ledger positions *)

Lemma advance_ledger_seq_stale (latest : position) (msg : Message) :
  lex_lt (msg_position msg) latest ->
  advance_ledger_seq latest msg
  = (["out of order ledger seq for msg " +:+ hash msg], latest).
Proof.
  destruct latest as [l t]. unfold lex_lt, msg_position, advance_ledger_seq.
  simpl. intros Hlt.
  destruct (ledger_seq msg >? l) eqn:Hl; [lia|].
  destruct (ledger_seq msg =? l) eqn:He; simpl.
  - destruct (transaction_seq msg >? t) eqn:Ht; [lia|].
    destruct (transaction_seq msg =? t) eqn:Hte; [lia|reflexivity].
  - reflexivity.
Qed.

Lemma advance_ledger_seq_duplicate (msg : Message) :
  advance_ledger_seq (msg_position msg) msg
  = (["duplicate ledger seq for msg " +:+ hash msg], msg_position msg).
Proof.
  unfold advance_ledger_seq, msg_position.
  rewrite !Z.gtb_ltb, !Z.ltb_irrefl, !Z.eqb_refl. reflexivity.
Qed.

Lemma advance_ledger_seq_fresh (latest : position) (msg : Message) :
  ~ lex_lt (msg_position msg) latest ->
  (advance_ledger_seq latest msg).2 = msg_position msg.
Proof.
  destruct latest as [l t]. unfold lex_lt, msg_position, advance_ledger_seq.
  simpl. intros Hnlt.
  destruct (ledger_seq msg >? l) eqn:Hl; [reflexivity|].
  destruct (ledger_seq msg =? l) eqn:He; simpl.
  - destruct (transaction_seq msg >? t) eqn:Ht; [reflexivity|].
    destruct (transaction_seq msg =? t) eqn:Hte; simpl; [f_equal; lia|lia].
  - lia.
Qed.

Lemma advance_ledger_seq_again (latest : position) (msg : Message) :
  (advance_ledger_seq (advance_ledger_seq latest msg).2 msg).2
  = (advance_ledger_seq latest msg).2.
Proof.
  destruct (advance_ledger_seq_le latest msg) as [Heq|Hlt].
  - rewrite Heq. exact Heq.
  - destruct latest as [l t].
    assert (Hpos : (advance_ledger_seq (l, t) msg).2 = msg_position msg).
    { revert Hlt. unfold advance_ledger_seq, lex_lt, msg_position.
      destruct (_ || _); simpl; [reflexivity|].
      destruct (_ && _); simpl; lia. }
    rewrite Hpos, advance_ledger_seq_duplicate. reflexivity.
Qed.

Lemma node_keep_latest (n : NodeState.t) :
  NodeState.mk (NodeState.accounts n) (NodeState.latest_ledger_seq n) = n.
Proof. destruct n; reflexivity. Qed.

Lemma user_keep_latest (u : UserState.t) :
  UserState.mk (UserState.node_account u) (UserState.latest_ledger_seq u) = u.
Proof. destruct u; reflexivity. Qed.

(** C1, as the code has it: applying a message a second time leaves the
    stored position where the first application left it, and when the
    message was not older than the position stored before the first
    application, the second finds it equal to the stored position and
    prints the duplicate diagnostic.  The second application is not
    dropped: the root hands the message to the account once more and
    stores what the account becomes. *)
Theorem duplicate_still_routed (msg : Message) :
  (forall n : NodeState.t,
     let n1 := state_of (NodeState.update n msg).2 in
     NodeState.latest_ledger_seq (state_of (NodeState.update n1 msg).2)
     = NodeState.latest_ledger_seq n1
     /\ (~ lex_lt (msg_position msg) (NodeState.latest_ledger_seq n) ->
         NodeState.latest_ledger_seq n1 = msg_position msg
         /\ (NodeState.update n1 msg).1
            = ["duplicate ledger seq for msg " +:+ hash msg])
     /\ (NodeState.update n1 msg).2
        = outcome_map (NodeState.set_account n1 (user_wallet msg))
            (AccountState.update (NodeState.account n1 (user_wallet msg)) msg))
  /\ (forall u : UserState.t,
        let u1 := state_of (UserState.update u msg).2 in
        UserState.latest_ledger_seq (state_of (UserState.update u1 msg).2)
        = UserState.latest_ledger_seq u1
        /\ (~ lex_lt (msg_position msg) (UserState.latest_ledger_seq u) ->
            UserState.latest_ledger_seq u1 = msg_position msg
            /\ (UserState.update u1 msg).1
               = ["duplicate ledger seq for msg " +:+ hash msg])
        /\ (UserState.update u1 msg).2
           = outcome_map (UserState.set_node_account u1)
               (AccountState.update (UserState.node_account u1) msg)).
Proof.
  split.
  - intros n n1.
    assert (Hagain : (advance_ledger_seq (NodeState.latest_ledger_seq n1) msg).2
                     = NodeState.latest_ledger_seq n1).
    { unfold n1. rewrite node_update_latest. apply advance_ledger_seq_again. }
    split; [|split].
    + rewrite node_update_latest. exact Hagain.
    + intros Hfresh.
      assert (Hpos : NodeState.latest_ledger_seq n1 = msg_position msg).
      { unfold n1. rewrite node_update_latest.
        apply advance_ledger_seq_fresh, Hfresh. }
      split; [exact Hpos|].
      rewrite node_update_unfold. simpl.
      rewrite Hpos, advance_ledger_seq_duplicate. reflexivity.
    + rewrite node_update_unfold. simpl.
      rewrite Hagain, node_keep_latest. reflexivity.
  - intros u u1.
    assert (Hagain : (advance_ledger_seq (UserState.latest_ledger_seq u1) msg).2
                     = UserState.latest_ledger_seq u1).
    { unfold u1. rewrite user_update_latest. apply advance_ledger_seq_again. }
    split; [|split].
    + rewrite user_update_latest. exact Hagain.
    + intros Hfresh.
      assert (Hpos : UserState.latest_ledger_seq u1 = msg_position msg).
      { unfold u1. rewrite user_update_latest.
        apply advance_ledger_seq_fresh, Hfresh. }
      split; [exact Hpos|].
      rewrite user_update_unfold. simpl.
      rewrite Hpos, advance_ledger_seq_duplicate. reflexivity.
    + rewrite user_update_unfold. simpl.
      rewrite Hagain, user_keep_latest. reflexivity.
Qed.

Lemma duplicate_still_routed_witness :
  NodeState.latest_ledger_seq
    (state_of (NodeState.update NodeState.init request_msg).2)
  = msg_position request_msg
  /\ (NodeState.update
        (state_of (NodeState.update NodeState.init request_msg).2)
        request_msg).1
     = ["duplicate ledger seq for msg " +:+ hash request_msg].
Proof.
  destruct (duplicate_still_routed request_msg) as [Hnode _].
  destruct (Hnode NodeState.init) as (_ & Hdup & _).
  apply Hdup. unfold lex_lt. simpl. lia.
Defined.

(** The claim C1 fails on the code: a request at position (5, 1) applied
    twice to the initial node state is found to be a duplicate the second
    time, and is appended to the account history a second time all the
    same; likewise on the initial user state. *)
Lemma duplicate_dropped_counterexample :
  let n1 := state_of (NodeState.update NodeState.init request_msg).2 in
  let n2 := state_of (NodeState.update n1 request_msg).2 in
  let u1 := state_of (UserState.update UserState.init request_msg).2 in
  let u2 := state_of (UserState.update u1 request_msg).2 in
  NodeState.latest_ledger_seq n1 = msg_position request_msg
  /\ n2 <> n1
  /\ AccountState.account_message_history (NodeState.account n1 "rUser")
     = [(Direction.INBOUND, "request")]
  /\ AccountState.account_message_history (NodeState.account n2 "rUser")
     = [(Direction.INBOUND, "request"); (Direction.INBOUND, "request")]
  /\ u2 <> u1.
Proof.
  repeat split; try reflexivity.
  - intros Heq.
    apply (f_equal (fun n => length (AccountState.account_message_history
                                       (NodeState.account n "rUser")))) in Heq.
    vm_compute in Heq. discriminate.
  - intros Heq.
    apply (f_equal (fun u => length (AccountState.account_message_history
                                       (UserState.node_account u)))) in Heq.
    vm_compute in Heq. discriminate.
Qed.

(** C2, as the code has it: a message whose position is strictly below the
    stored one leaves the stored position unchanged and prints the
    out-of-order diagnostic.  It is not dropped: the root hands it to the
    account of its wallet (respectively to its single account) and stores
    what the account becomes. *)
Theorem stale_still_routed (msg : Message) :
  (forall n : NodeState.t,
     lex_lt (msg_position msg) (NodeState.latest_ledger_seq n) ->
     NodeState.update n msg
     = (["out of order ledger seq for msg " +:+ hash msg],
        outcome_map (NodeState.set_account n (user_wallet msg))
          (AccountState.update (NodeState.account n (user_wallet msg)) msg))
     /\ NodeState.latest_ledger_seq (state_of (NodeState.update n msg).2)
        = NodeState.latest_ledger_seq n)
  /\ (forall u : UserState.t,
        lex_lt (msg_position msg) (UserState.latest_ledger_seq u) ->
        UserState.update u msg
        = (["out of order ledger seq for msg " +:+ hash msg],
           outcome_map (UserState.set_node_account u)
             (AccountState.update (UserState.node_account u) msg))
        /\ UserState.latest_ledger_seq (state_of (UserState.update u msg).2)
           = UserState.latest_ledger_seq u).
Proof.
  split.
  - intros n Hlt. split.
    + rewrite node_update_unfold, (advance_ledger_seq_stale _ _ Hlt). simpl.
      rewrite node_keep_latest. reflexivity.
    + rewrite node_update_latest, (advance_ledger_seq_stale _ _ Hlt).
      reflexivity.
  - intros u Hlt. split.
    + rewrite user_update_unfold, (advance_ledger_seq_stale _ _ Hlt). simpl.
      rewrite user_keep_latest. reflexivity.
    + rewrite user_update_latest, (advance_ledger_seq_stale _ _ Hlt).
      reflexivity.
Qed.

Lemma stale_still_routed_witness :
  NodeState.latest_ledger_seq
    (state_of (NodeState.update node_at_5_2 stale_msg).2)
  = NodeState.latest_ledger_seq node_at_5_2.
Proof.
  destruct (stale_still_routed stale_msg) as [Hnode _].
  destruct (Hnode node_at_5_2) as [_ Hkeep].
  - unfold lex_lt. simpl. lia.
  - exact Hkeep.
Defined.

(** The claim C2 fails on the code: a message at position (4, 7) arriving
    at a root that has accepted (5, 2) is reported as out of order and then
    handed to the account, whose history records it. *)
Lemma stale_dropped_counterexample :
  lex_lt (msg_position stale_msg) (NodeState.latest_ledger_seq node_at_5_2)
  /\ lex_lt (msg_position stale_msg) (UserState.latest_ledger_seq user_at_5_2)
  /\ state_of (NodeState.update node_at_5_2 stale_msg).2 <> node_at_5_2
  /\ AccountState.account_message_history
       (NodeState.account
          (state_of (NodeState.update node_at_5_2 stale_msg).2) "rUser")
     = [(Direction.OUTBOUND, "funding")]
  /\ state_of (UserState.update user_at_5_2 stale_msg).2 <> user_at_5_2.
Proof.
  repeat split; try reflexivity.
  - unfold lex_lt. simpl. lia.
  - unfold lex_lt. simpl. lia.
  - intros Heq.
    apply (f_equal (fun n => length (AccountState.account_message_history
                                       (NodeState.account n "rUser")))) in Heq.
    vm_compute in Heq. discriminate.
  - intros Heq.
    apply (f_equal (fun u => length (AccountState.account_message_history
                                       (UserState.node_account u)))) in Heq.
    vm_compute in Heq. discriminate.
Qed.

(** ** UserState as the single-account view of NodeState *)

Lemma state_of_outcome_map {S T : Type} (f : S -> T) (o : outcome S) :
  state_of (outcome_map f o) = f (state_of o).
Proof. destruct o; reflexivity. Qed.

Lemma user_view_set_account (w : string) (n : NodeState.t)
    (a : AccountState.t) :
  user_view w (NodeState.set_account n w a)
  = UserState.set_node_account (user_view w n) a.
Proof.
  unfold user_view, NodeState.set_account, UserState.set_node_account,
    NodeState.account, getitem. simpl.
  rewrite lookup_insert_eq. reflexivity.
Qed.

Lemma user_view_update (w : string) (n : NodeState.t) (msg : Message) :
  user_wallet msg = w ->
  UserState.update (user_view w n) msg
  = ((NodeState.update n msg).1,
     outcome_map (user_view w) (NodeState.update n msg).2).
Proof.
  intros <-. rewrite node_update_unfold, user_update_unfold. simpl.
  f_equal.
  destruct (AccountState.update _ msg) as [a|e a]; simpl;
    rewrite user_view_set_account; reflexivity.
Qed.

(** C10: for messages that all bear the wallet [w], a series of
    [UserState.update] calls on the single-account view of a node state
    prints what the [NodeState.update] calls print, ends each call the same
    way, and after each call holds the account the node state holds for [w]
    and the same stored position; the initial user state is the view of the
    initial node state. *)
Theorem user_state_mirrors_node_state (w : string) (msgs : list Message) :
  Forall (fun msg => user_wallet msg = w) msgs ->
  (forall n : NodeState.t,
     UserState.updates (user_view w n) msgs
     = map (fun r => (r.1, outcome_map (user_view w) r.2))
           (NodeState.updates n msgs))
  /\ user_view w NodeState.init = UserState.init.
Proof.
  intros Hall. split; [|reflexivity].
  induction Hall as [|msg msgs Hw Hall IH]; intros n; simpl; [reflexivity|].
  rewrite (user_view_update w n msg Hw). simpl.
  rewrite state_of_outcome_map, IH. reflexivity.
Qed.

Lemma user_state_mirrors_node_state_witness :
  UserState.updates UserState.init [request_msg; proposal_msg; request_msg]
  = map (fun r => (r.1, outcome_map (user_view "rUser") r.2))
        (NodeState.updates NodeState.init
           [request_msg; proposal_msg; request_msg]).
Proof.
  destruct (user_state_mirrors_node_state "rUser"
              [request_msg; proposal_msg; request_msg]) as [Hsim Hinit].
  - repeat constructor.
  - rewrite <- Hinit. apply Hsim.
Defined.

(** ** The scenarios of the specification *)

Example scenario_rite :
  let a1 := state_of (AccountState.update AccountState.init rite_start_msg) in
  let a2 := state_of (AccountState.update a1 context_msg) in
  let a3 := state_of (AccountState.update a2 rite_reward_msg) in
  (AccountState.init_rite_status a1, AccountState.status a1)
  = (RiteStatus.UNDERWAY, AccountStatus.PENDING)
  /\ (AccountState.context_doc_link a2, AccountState.status a2)
     = (Some "doc://x", AccountStatus.PENDING)
  /\ (AccountState.init_rite_status a3, AccountState.status a3)
     = (RiteStatus.COMPLETE, AccountStatus.ACTIVE).
Proof. repeat split. Qed.

Example scenario_task :
  let t1 := TaskState.update TaskState.init proposal_msg in
  let t2 := TaskState.update t1 request_msg in
  let t3 := TaskState.update t2 proposal_msg in
  (TaskState.status t1, length (TaskState.message_history t1),
   TaskState.pft_offered t1)
  = (TaskStatus.INVALID, 1%nat, None)
  /\ TaskState.status t2 = TaskStatus.REQUESTED
  /\ (TaskState.status t3, TaskState.pft_offered t3)
     = (TaskStatus.PROPOSED, Some (mkDecimal 42 0)).
Proof. repeat split. Qed.

Example scenario_positions :
  NodeState.latest_ledger_seq
    (state_of (NodeState.update
       (state_of (NodeState.update NodeState.init request_msg).2)
       request_msg).2) = (5, 1)
  /\ NodeState.latest_ledger_seq
       (state_of (NodeState.update
          (state_of (NodeState.update NodeState.init proposal_msg).2)
          request_msg).2) = (5, 2).
Proof. split; reflexivity. Qed.

(** Without its task identifier a task-scoped message makes an active
    account raise, after the history entry has been appended. *)
Example anonymous_task_raises :
  AccountState.update active_account anonymous_task_msg
  = Raised (AttributeError "task_id")
      (AccountState.append_history active_account anonymous_task_msg)
  /\ well_formed anonymous_task_msg = false.
Proof. split; reflexivity. Qed.

(** * Further properties of the reducer *)

(** ** LogState *)

(** X1: [LogState.update] is idempotent: a message applied a second time
    changes nothing, whatever its variant and the log's state. *)
Theorem log_update_idempotent (self : LogState.t) (msg : Message) :
  LogState.update (LogState.update self msg) msg = LogState.update self msg.
Proof.
  unfold LogState.update. destruct (variant msg); reflexivity.
Qed.

Lemma log_update_keeps_texts (self : LogState.t) (msg : Message) :
  texts_match_status self -> texts_match_status (LogState.update self msg).
Proof.
  unfold texts_match_status, LogState.update.
  destruct (variant msg); simpl; eauto.
Qed.

(** X2: along every series of updates of a fresh log, the status tells
    which texts are present: INVALID only with neither text, REQUESTED only
    with a request, RESPONDED only with a response.  A response may come
    first: it gives RESPONDED without a request. *)
Theorem log_texts_match_status (msgs : list Message) :
  texts_match_status (fold_left LogState.update msgs LogState.init)
  /\ (forall msg text, variant msg = NodeLogResponseMessage text ->
        LogState.update LogState.init msg
        = LogState.mk LogStatus.RESPONDED None (Some text)).
Proof.
  split.
  - assert (Hgen : forall self, texts_match_status self ->
               texts_match_status (fold_left LogState.update msgs self)).
    { induction msgs as [|msg msgs IH]; intros self Hinv; simpl; [exact Hinv|].
      apply IH, log_update_keeps_texts, Hinv. }
    apply Hgen. split; reflexivity.
  - intros msg text Hv. unfold LogState.update. rewrite Hv. reflexivity.
Qed.

Lemma log_texts_match_status_witness :
  LogState.update LogState.init
    (mkMessage Scope.ACCOUNT Direction.OUTBOUND 9 0 "rUser" None (Some "L1")
       "answer" "H9" (NodeLogResponseMessage "do this"))
  = LogState.mk LogStatus.RESPONDED None (Some "do this").
Proof.
  destruct (log_texts_match_status []) as [_ Hresp].
  apply Hresp. reflexivity.
Defined.

(** ** TaskState *)

Lemma task_rank_step (self : TaskState.t) (msg : Message) :
  TaskState.status (TaskState.update self msg) = TaskState.status self
  \/ (task_rank (TaskState.status self)
      < task_rank (TaskState.status (TaskState.update self msg)))%nat.
Proof.
  rewrite task_update_status. unfold documented_status.
  destruct (variant msg), (TaskState.status self); simpl;
    first [left; reflexivity | right; lia].
Qed.

(** X3: a task never moves backwards: each update either keeps the status
    or moves it strictly forward in the order INVALID, REQUESTED, PROPOSED,
    ACCEPTED, COMPLETED, CHALLENGED, RESPONDED, REWARDED, REFUSED; so after
    any series of updates the status is at least as far as before. *)
Theorem task_status_never_regresses (msgs : list Message) (self : TaskState.t) :
  (forall msg,
     TaskState.status (TaskState.update self msg) = TaskState.status self
     \/ (task_rank (TaskState.status self)
         < task_rank (TaskState.status (TaskState.update self msg)))%nat)
  /\ (task_rank (TaskState.status self)
      <= task_rank (TaskState.status (fold_left TaskState.update msgs self)))%nat.
Proof.
  split; [intros msg; apply task_rank_step|].
  revert self. induction msgs as [|msg msgs IH]; intros self; simpl; [lia|].
  specialize (IH (TaskState.update self msg)).
  destruct (task_rank_step self msg) as [Heq|Hlt]; [rewrite <- Heq|]; lia.
Qed.

(** X4: REFUSED and REWARDED are terminal: no series of messages changes
    the status or either amount of a task in one of them; only the history
    grows. *)
Theorem task_terminal_absorbing (msgs : list Message) (self : TaskState.t) :
  TaskState.status self = TaskStatus.REFUSED
  \/ TaskState.status self = TaskStatus.REWARDED ->
  fold_left TaskState.update msgs self
  = TaskState.mk (TaskState.status self) (TaskState.pft_offered self)
      (TaskState.pft_rewarded self)
      (TaskState.message_history self ++ map history_entry msgs).
Proof.
  revert self. induction msgs as [|msg msgs IH]; intros self Hterm; simpl.
  - rewrite app_nil_r. destruct self; reflexivity.
  - assert (Hstep : TaskState.update self msg
                    = TaskState.append_history self msg).
    { unfold TaskState.update. destruct self as [st off rew hist].
      simpl in Hterm.
      destruct Hterm as [-> | ->]; destruct (variant msg); reflexivity. }
    rewrite Hstep, IH by exact Hterm. simpl.
    rewrite <- app_assoc. reflexivity.
Qed.

Lemma task_terminal_absorbing_witness :
  TaskState.status
    (fold_left TaskState.update [request_msg; proposal_msg]
       (TaskState.set_status proposed_task TaskStatus.REFUSED))
  = TaskStatus.REFUSED.
Proof.
  rewrite (task_terminal_absorbing [request_msg; proposal_msg]
             (TaskState.set_status proposed_task TaskStatus.REFUSED)).
  - reflexivity.
  - left. reflexivity.
Defined.

(** X5: the history of a task records every message it was given, in order,
    whether or not the message changed the status. *)
Theorem task_history_records_all (msgs : list Message) (self : TaskState.t) :
  TaskState.message_history (fold_left TaskState.update msgs self)
  = TaskState.message_history self ++ map history_entry msgs.
Proof.
  revert self. induction msgs as [|msg msgs IH]; intros self; simpl.
  - rewrite app_nil_r. reflexivity.
  - rewrite IH, task_update_history, <- app_assoc. reflexivity.
Qed.

Lemma task_update_keeps_amounts_match (self : TaskState.t) (msg : Message) :
  amounts_match_status self -> amounts_match_status (TaskState.update self msg).
Proof.
  destruct self as [st off rew hist].
  unfold amounts_match_status, TaskState.update. simpl.
  intros [Hoff Hrew].
  destruct (variant msg), st, off, rew; simpl in *;
    intuition (discriminate || congruence).
Qed.

(** X6: along every series of updates of a fresh task, the offered amount
    is unset exactly while the status is INVALID or REQUESTED, and the
    rewarded amount is unset exactly while the status is not REWARDED. *)
Theorem task_amounts_match_status (msgs : list Message) :
  amounts_match_status (fold_left TaskState.update msgs TaskState.init).
Proof.
  assert (Hgen : forall self, amounts_match_status self ->
             amounts_match_status (fold_left TaskState.update msgs self)).
  { induction msgs as [|msg msgs IH]; intros self Hinv; simpl; [exact Hinv|].
    apply IH, task_update_keeps_amounts_match, Hinv. }
  apply Hgen. unfold amounts_match_status. simpl.
  split; split; intros H; auto; discriminate.
Qed.

(** X7: once a task has got past REQUESTED, its offered amount is fixed: no
    series of messages, further proposals included, changes it. *)
Theorem task_offer_fixed_after_proposal (msgs : list Message)
    (self : TaskState.t) :
  TaskState.status self <> TaskStatus.INVALID ->
  TaskState.status self <> TaskStatus.REQUESTED ->
  TaskState.pft_offered (fold_left TaskState.update msgs self)
  = TaskState.pft_offered self.
Proof.
  revert self. induction msgs as [|msg msgs IH]; intros self Hni Hnr; simpl;
    [reflexivity|].
  assert (Hstep : TaskState.pft_offered (TaskState.update self msg)
                  = TaskState.pft_offered self
                  /\ TaskState.status (TaskState.update self msg)
                     <> TaskStatus.INVALID
                  /\ TaskState.status (TaskState.update self msg)
                     <> TaskStatus.REQUESTED).
  { destruct self as [st off rew hist]. simpl in Hni, Hnr.
    unfold TaskState.update.
    destruct (variant msg), st; simpl; repeat split; congruence. }
  destruct Hstep as (Hoff & Hni' & Hnr').
  rewrite IH by assumption. exact Hoff.
Qed.

Lemma task_offer_fixed_after_proposal_witness :
  TaskState.pft_offered
    (fold_left TaskState.update [proposal_msg; request_msg] proposed_task)
  = Some (mkDecimal 42 0).
Proof.
  rewrite (task_offer_fixed_after_proposal [proposal_msg; request_msg]
             proposed_task).
  - reflexivity.
  - discriminate.
  - discriminate.
Defined.

(** ** Rendered histories *)

Lemma string_app_assoc (a b c : string) : (a +:+ b) +:+ c = a +:+ (b +:+ c).
Proof.
  induction a as [|ch a IH]; [reflexivity|].
  change (String ch ((a +:+ b) +:+ c) = String ch (a +:+ (b +:+ c))).
  f_equal. exact IH.
Qed.

Lemma join_snoc (sep : string) (l : list string) (x : string) :
  join sep (l ++ [x])
  = match l with
    | [] => x
    | _ :: _ => join sep l +:+ sep +:+ x
    end.
Proof.
  induction l as [|y l IH]; [reflexivity|].
  destruct l as [|z l]; [reflexivity|].
  change (join sep ((y :: z :: l) ++ [x]))
    with (y +:+ sep +:+ join sep ((z :: l) ++ [x])).
  rewrite IH. cbv beta iota.
  change (join sep (y :: z :: l)) with (y +:+ sep +:+ join sep (z :: l)).
  rewrite !string_app_assoc. reflexivity.
Qed.

(** X8: [TaskState.data()] after an update is the text before it followed
    by a line separator and the line "direction: raw_data" of the message;
    on a task with an empty history it is that line alone, with no
    separator. *)
Theorem task_data_appends_line (linesep : string)
    (str_direction : Direction.t -> string)
    (self : TaskState.t) (msg : Message) :
  TaskState.data linesep str_direction (TaskState.update self msg)
  = match TaskState.message_history self with
    | [] => str_direction (direction msg) +:+ ": " +:+ raw_data msg
    | _ :: _ =>
        TaskState.data linesep str_direction self +:+ linesep
        +:+ (str_direction (direction msg) +:+ ": " +:+ raw_data msg)
    end.
Proof.
  unfold TaskState.data. rewrite task_update_history, map_app. simpl.
  rewrite join_snoc.
  destruct (TaskState.message_history self); reflexivity.
Qed.

(** ** AccountState *)

(** Case analysis of one [AccountState.update] call on everything the call
    branches on. *)
Ltac account_update_cases self msg :=
  destruct self as [rite link sweep bl ts ls hist];
  unfold AccountState.update, AccountState.update_task,
    AccountState.update_log, AccountState.status;
  simpl;
  destruct bl, rite, link, (scope msg), (variant msg),
    (task_id msg), (message_id msg);
  simpl.

Lemma account_update_history (self : AccountState.t) (msg : Message) :
  AccountState.account_message_history (state_of (AccountState.update self msg))
  = if AccountState.is_blacklisted self
    then AccountState.account_message_history self
    else AccountState.account_message_history self ++ [history_entry msg].
Proof. account_update_cases self msg; reflexivity. Qed.

(** X9: every call of [AccountState.update] on an account that is not
    blacklisted appends exactly the message's (direction, raw_data) entry to
    the account history, also when the call goes on to raise; a blacklisted
    account's history stays as it is.  So the history before any series of
    calls is a prefix of the history after it. *)
Theorem account_history_append_only (msgs : list Message)
    (self : AccountState.t) :
  (forall msg,
     AccountState.account_message_history
       (state_of (AccountState.update self msg))
     = if AccountState.is_blacklisted self
       then AccountState.account_message_history self
       else AccountState.account_message_history self ++ [history_entry msg])
  /\ AccountState.account_message_history self
     `prefix_of` AccountState.account_message_history (account_run self msgs).
Proof.
  split; [intros msg; apply account_update_history|].
  revert self. unfold account_run.
  induction msgs as [|msg msgs IH]; intros self; simpl; [reflexivity|].
  etransitivity; [|apply IH].
  rewrite account_update_history.
  destruct (AccountState.is_blacklisted self);
    [reflexivity|apply prefix_app_r; reflexivity].
Qed.

(** X10: the blacklist flag after a call is set exactly when it was set
    before or the message is an account-scoped [NodeBlacklistMessage]: no
    other message sets it and none clears it. *)
Theorem blacklist_flag_after_update (self : AccountState.t) (msg : Message) :
  AccountState.is_blacklisted (state_of (AccountState.update self msg))
  = AccountState.is_blacklisted self || is_blacklist_msg msg.
Proof.
  unfold is_blacklist_msg. account_update_cases self msg; reflexivity.
Qed.

Lemma rite_step (self : AccountState.t) (msg : Message) :
  let r := AccountState.init_rite_status self in
  let r' := AccountState.init_rite_status
              (state_of (AccountState.update self msg)) in
  r' = r
  \/ (r = RiteStatus.UNSTARTED /\ r' = RiteStatus.UNDERWAY
      /\ variant msg = UserInitiationRiteMessage)
  \/ (r = RiteStatus.UNDERWAY /\ r' = RiteStatus.COMPLETE
      /\ variant msg = NodeInitiationRewardMessage).
Proof.
  destruct self as [rite link sweep bl ts ls hist].
  unfold AccountState.update, AccountState.update_task,
    AccountState.update_log, AccountState.status.
  simpl.
  destruct bl, rite, link, (scope msg), (variant msg) eqn:Hv,
    (task_id msg), (message_id msg);
    simpl; auto.
Qed.

(** X11: the initiation rite only moves forward: a call leaves the rite
    status as it is, or takes it from UNSTARTED to UNDERWAY on a
    [UserInitiationRiteMessage], or from UNDERWAY to COMPLETE on a
    [NodeInitiationRewardMessage]; after any series of calls it is at least
    as far as before. *)
Theorem rite_never_regresses (msgs : list Message) (self : AccountState.t) :
  (forall msg,
     AccountState.init_rite_status (state_of (AccountState.update self msg))
     = AccountState.init_rite_status self
     \/ (AccountState.init_rite_status self = RiteStatus.UNSTARTED
         /\ AccountState.init_rite_status
              (state_of (AccountState.update self msg)) = RiteStatus.UNDERWAY
         /\ variant msg = UserInitiationRiteMessage)
     \/ (AccountState.init_rite_status self = RiteStatus.UNDERWAY
         /\ AccountState.init_rite_status
              (state_of (AccountState.update self msg)) = RiteStatus.COMPLETE
         /\ variant msg = NodeInitiationRewardMessage))
  /\ (rite_rank (AccountState.init_rite_status self)
      <= rite_rank (AccountState.init_rite_status (account_run self msgs)))%nat.
Proof.
  split; [intros msg; apply rite_step|].
  revert self. unfold account_run.
  induction msgs as [|msg msgs IH]; intros self; simpl; [lia|].
  specialize (IH (state_of (AccountState.update self msg))).
  destruct (rite_step self msg) as [Heq|[(Hr & Hr' & _)|(Hr & Hr' & _)]];
    simpl in *.
  - rewrite <- Heq. exact IH.
  - rewrite Hr' in IH. rewrite Hr. simpl in *. lia.
  - rewrite Hr' in IH. rewrite Hr. simpl in *. lia.
Qed.

Lemma blacklisted_update_returns_self (self : AccountState.t) :
  AccountState.is_blacklisted self = true ->
  forall msg, AccountState.update self msg = Returned self.
Proof.
  intros Hbl msg. unfold AccountState.update, AccountState.status.
  rewrite Hbl. reflexivity.
Qed.

Lemma active_step (self : AccountState.t) (msg : Message) :
  AccountState.status self = AccountStatus.ACTIVE ->
  AccountState.status (state_of (AccountState.update self msg))
  = if is_blacklist_msg msg then AccountStatus.BLACKLISTED
    else AccountStatus.ACTIVE.
Proof.
  unfold is_blacklist_msg.
  destruct self as [rite link sweep bl ts ls hist].
  unfold AccountState.update, AccountState.update_task,
    AccountState.update_log, AccountState.status.
  simpl.
  destruct bl, rite, link; simpl; try discriminate. intros _.
  destruct (scope msg), (variant msg), (task_id msg), (message_id msg);
    reflexivity.
Qed.

(** X12: an ACTIVE account never falls back to PENDING: after any series of
    calls it is ACTIVE or BLACKLISTED, and a single call makes it
    BLACKLISTED exactly on an account-scoped [NodeBlacklistMessage]. *)
Theorem active_never_pending (msgs : list Message) (self : AccountState.t) :
  AccountState.status self = AccountStatus.ACTIVE ->
  (forall msg,
     AccountState.status (state_of (AccountState.update self msg))
     = if is_blacklist_msg msg then AccountStatus.BLACKLISTED
       else AccountStatus.ACTIVE)
  /\ (AccountState.status (account_run self msgs) = AccountStatus.ACTIVE
      \/ AccountState.status (account_run self msgs)
         = AccountStatus.BLACKLISTED).
Proof.
  intros Hact. split; [intros msg; apply active_step, Hact|].
  revert self Hact. unfold account_run.
  induction msgs as [|msg msgs IH]; intros self Hact; simpl; [auto|].
  pose proof (active_step self msg Hact) as Hstep.
  destruct (is_blacklist_msg msg).
  - right.
    assert (Hbl : AccountState.is_blacklisted
                    (state_of (AccountState.update self msg)) = true).
    { revert Hstep. unfold AccountState.status.
      destruct (AccountState.is_blacklisted _); [reflexivity|].
      destruct (_ || _); discriminate. }
    pose proof (blacklisted_update_returns_self
                  (state_of (AccountState.update self msg)) Hbl) as Hfix.
    clear IH Hstep.
    set (a := state_of (AccountState.update self msg)) in *.
    assert (Hrun : fold_left (fun a0 msg0 => state_of (AccountState.update a0 msg0))
                     msgs a = a).
    { induction msgs as [|m ms IHm]; simpl; [reflexivity|].
      rewrite Hfix. simpl. exact IHm. }
    rewrite Hrun. unfold AccountState.status. rewrite Hbl. reflexivity.
  - apply IH, Hstep.
Qed.

Lemma active_never_pending_witness :
  AccountState.status
    (account_run active_account [request_msg; stale_msg; log_request_msg])
  = AccountStatus.ACTIVE
  \/ AccountState.status
       (account_run active_account [request_msg; stale_msg; log_request_msg])
     = AccountStatus.BLACKLISTED.
Proof.
  destruct (active_never_pending [request_msg; stale_msg; log_request_msg]
              active_account) as [_ Hrun].
  - reflexivity.
  - exact Hrun.
Defined.

(** X13: a call touches children only while the account is ACTIVE: on an
    account that is PENDING or BLACKLISTED no message, of any scope or
    variant, creates or changes a task or a log. *)
Theorem children_need_active (self : AccountState.t) (msg : Message) :
  AccountState.status self <> AccountStatus.ACTIVE ->
  AccountState.tasks (state_of (AccountState.update self msg))
  = AccountState.tasks self
  /\ AccountState.logs (state_of (AccountState.update self msg))
     = AccountState.logs self.
Proof.
  account_update_cases self msg; intros Hna; split;
    first [reflexivity | contradiction].
Qed.

Lemma children_need_active_witness :
  AccountState.tasks
    (state_of (AccountState.update AccountState.init request_msg))
  = AccountState.tasks AccountState.init.
Proof.
  destruct (children_need_active AccountState.init request_msg) as [Htasks _].
  - discriminate.
  - exact Htasks.
Defined.

(** X14: a task-scoped message leaves the rite status, the context link,
    the sweep address, the blacklist flag and the logs as they are; an
    account-scoped message leaves the tasks as they are. *)
Theorem scope_frames (self : AccountState.t) (msg : Message) :
  let self' := state_of (AccountState.update self msg) in
  match scope msg with
  | Scope.TASK =>
      AccountState.init_rite_status self' = AccountState.init_rite_status self
      /\ AccountState.context_doc_link self' = AccountState.context_doc_link self
      /\ AccountState.sweep_address self' = AccountState.sweep_address self
      /\ AccountState.is_blacklisted self' = AccountState.is_blacklisted self
      /\ AccountState.logs self' = AccountState.logs self
  | Scope.ACCOUNT => AccountState.tasks self' = AccountState.tasks self
  end.
Proof.
  account_update_cases self msg; repeat split; reflexivity.
Qed.

(** X15: a call changes at most one child of each kind: every task stored
    under a key other than the message's task identifier, and every log
    stored under a key other than its message identifier, is left exactly as
    it was, absent keys staying absent. *)
Theorem other_children_untouched (self : AccountState.t) (msg : Message)
    (k : string) :
  (task_id msg <> Some k ->
   AccountState.tasks (state_of (AccountState.update self msg)) !! k
   = AccountState.tasks self !! k)
  /\ (message_id msg <> Some k ->
      AccountState.logs (state_of (AccountState.update self msg)) !! k
      = AccountState.logs self !! k).
Proof.
  destruct self as [rite link sweep bl ts ls hist].
  unfold AccountState.update, AccountState.update_task,
    AccountState.update_log, AccountState.status.
  simpl.
  destruct bl, rite, link, (scope msg), (variant msg),
    (task_id msg) as [tid|], (message_id msg) as [mid|];
    simpl; split; intros Hne; try reflexivity;
    apply lookup_insert_ne; congruence.
Qed.

Lemma other_children_untouched_witness :
  AccountState.tasks
    (state_of (AccountState.update active_account request_msg)) !! "T2"
  = AccountState.tasks active_account !! "T2".
Proof.
  destruct (other_children_untouched active_account request_msg "T2")
    as [Htasks _].
  apply Htasks. discriminate.
Defined.

(** X16: [AccountState.data()] of an account that is not blacklisted grows
    by the separator and the line "direction: raw_data" of each message,
    whatever the message does otherwise; on an empty history the line
    stands alone. *)
Theorem account_data_appends_line (linesep : string)
    (str_direction : Direction.t -> string)
    (self : AccountState.t) (msg : Message) :
  AccountState.is_blacklisted self = false ->
  AccountState.data linesep str_direction
    (state_of (AccountState.update self msg))
  = match AccountState.account_message_history self with
    | [] => str_direction (direction msg) +:+ ": " +:+ raw_data msg
    | _ :: _ =>
        AccountState.data linesep str_direction self +:+ linesep
        +:+ (str_direction (direction msg) +:+ ": " +:+ raw_data msg)
    end.
Proof.
  intros Hbl. unfold AccountState.data.
  rewrite account_update_history, Hbl, map_app. simpl.
  rewrite join_snoc.
  destruct (AccountState.account_message_history self); reflexivity.
Qed.

Lemma account_data_appends_line_witness :
  AccountState.data "|" (fun d => match d with
            | Direction.INBOUND => "in"
            | Direction.OUTBOUND => "out"
            end)
    (state_of (AccountState.update AccountState.init request_msg))
  = "in: request".
Proof.
  rewrite (account_data_appends_line _ _ AccountState.init request_msg).
  - reflexivity.
  - reflexivity.
Defined.

(** ** NodeState and UserState *)

Lemma node_update_accounts (n : NodeState.t) (msg : Message) :
  NodeState.accounts (state_of (NodeState.update n msg).2)
  = <[user_wallet msg :=
        state_of (AccountState.update (NodeState.account n (user_wallet msg)) msg)]>
      (NodeState.accounts n).
Proof.
  rewrite node_update_unfold. simpl.
  unfold NodeState.account. simpl.
  destruct (AccountState.update _ msg); reflexivity.
Qed.

(** X17: a [NodeState.update] changes no account but the one of the
    message's wallet: every other wallet keeps its account, and a wallet
    that has none still has none. *)
Theorem other_wallets_untouched (n : NodeState.t) (msg : Message) (w : string) :
  w <> user_wallet msg ->
  NodeState.accounts (state_of (NodeState.update n msg).2) !! w
  = NodeState.accounts n !! w.
Proof.
  intros Hne. rewrite node_update_accounts.
  apply lookup_insert_ne. congruence.
Qed.

Lemma other_wallets_untouched_witness :
  NodeState.accounts
    (state_of (NodeState.update blacklisting_node other_wallet_msg).2) !! "rUser"
  = NodeState.accounts blacklisting_node !! "rUser".
Proof.
  apply (other_wallets_untouched blacklisting_node other_wallet_msg "rUser").
  discriminate.
Defined.

(** X18: every [NodeState.update] leaves an account stored under the
    message's wallet, created from the default account on first sight: the
    stored wallets afterwards are those before plus the message's wallet,
    and its account is what [AccountState.update] made of the one held
    before (or of a fresh account), also when that call raised. *)
Theorem wallet_account_created (n : NodeState.t) (msg : Message) :
  dom (NodeState.accounts (state_of (NodeState.update n msg).2))
  = {[user_wallet msg]} ∪ dom (NodeState.accounts n)
  /\ NodeState.accounts (state_of (NodeState.update n msg).2)
       !! user_wallet msg
     = Some (state_of
               (AccountState.update
                  (default AccountState.init
                     (NodeState.accounts n !! user_wallet msg)) msg)).
Proof.
  rewrite node_update_accounts. split.
  - apply dom_insert_L.
  - rewrite lookup_insert_eq. reflexivity.
Qed.

Lemma lex_ltb_spec (a b : position) : lex_ltb a b = true <-> lex_lt a b.
Proof.
  unfold lex_ltb, lex_lt. destruct a as [a1 a2], b as [b1 b2]. simpl.
  rewrite orb_true_iff, andb_true_iff, !Z.ltb_lt, Z.eqb_eq. reflexivity.
Qed.

Lemma advance_ledger_seq_max (latest : position) (msg : Message) :
  (advance_ledger_seq latest msg).2 = lex_max latest (msg_position msg).
Proof.
  destruct latest as [l t].
  unfold advance_ledger_seq, lex_max, lex_ltb, msg_position. simpl.
  rewrite !Z.gtb_ltb, (Z.eqb_sym (ledger_seq msg) l).
  destruct (_ || _); [reflexivity|].
  destruct (_ && _); reflexivity.
Qed.

(** X19: after any series of updates the stored position of a [NodeState]
    or [UserState] is the lexicographic maximum of the position stored
    before and the positions of all the messages, in whatever order they
    came and whether or not a call raised. *)
Theorem watermark_is_maximum (msgs : list Message) :
  (forall n : NodeState.t,
     NodeState.latest_ledger_seq (node_run n msgs)
     = fold_left lex_max (map msg_position msgs) (NodeState.latest_ledger_seq n))
  /\ (forall u : UserState.t,
        UserState.latest_ledger_seq (user_run u msgs)
        = fold_left lex_max (map msg_position msgs)
            (UserState.latest_ledger_seq u)).
Proof.
  unfold node_run, user_run.
  split; induction msgs as [|msg msgs IH]; intros s; simpl; try reflexivity.
  - rewrite IH, node_update_latest, advance_ledger_seq_max. reflexivity.
  - rewrite IH, user_update_latest, advance_ledger_seq_max. reflexivity.
Qed.

Lemma advance_ledger_seq_printed (latest : position) (msg : Message) :
  (advance_ledger_seq latest msg).1
  = if lex_ltb latest (msg_position msg) then []
    else if lex_ltb (msg_position msg) latest then [out_of_order_line msg]
    else [duplicate_line msg].
Proof.
  destruct latest as [l t].
  unfold advance_ledger_seq, lex_ltb, msg_position, out_of_order_line,
    duplicate_line. simpl.
  rewrite !Z.gtb_ltb.
  destruct (Z.ltb_spec l (ledger_seq msg)), (Z.eqb_spec (ledger_seq msg) l),
    (Z.eqb_spec l (ledger_seq msg)), (Z.ltb_spec t (transaction_seq msg)),
    (Z.ltb_spec (ledger_seq msg) l), (Z.eqb_spec (transaction_seq msg) t),
    (Z.ltb_spec (transaction_seq msg) t);
    simpl; try reflexivity; lia.
Qed.

(** X20: what an update prints is decided by comparing the message's
    position with the stored one in lexicographic order: nothing when it is
    greater, the duplicate line with the message's hash when it is equal,
    the out-of-order line when it is smaller; never more than one line. *)
Theorem diagnostics_by_position (n : NodeState.t) (u : UserState.t)
    (msg : Message) :
  (NodeState.update n msg).1
  = (if lex_ltb (NodeState.latest_ledger_seq n) (msg_position msg) then []
     else if lex_ltb (msg_position msg) (NodeState.latest_ledger_seq n)
     then ["out of order ledger seq for msg " +:+ hash msg]
     else ["duplicate ledger seq for msg " +:+ hash msg])
  /\ (UserState.update u msg).1
     = (if lex_ltb (UserState.latest_ledger_seq u) (msg_position msg) then []
        else if lex_ltb (msg_position msg) (UserState.latest_ledger_seq u)
        then ["out of order ledger seq for msg " +:+ hash msg]
        else ["duplicate ledger seq for msg " +:+ hash msg])
  /\ (lex_ltb (NodeState.latest_ledger_seq n) (msg_position msg) = false ->
      lex_ltb (msg_position msg) (NodeState.latest_ledger_seq n) = false ->
      msg_position msg = NodeState.latest_ledger_seq n).
Proof.
  split; [|split].
  - rewrite node_update_unfold. simpl. apply advance_ledger_seq_printed.
  - rewrite user_update_unfold. simpl. apply advance_ledger_seq_printed.
  - destruct (NodeState.latest_ledger_seq n) as [l t].
    unfold lex_ltb, msg_position. simpl. intros H1 H2.
    apply orb_false_iff in H1, H2. destruct H1 as [H1 H1'], H2 as [H2 H2'].
    apply Z.ltb_ge in H1, H2.
    assert (ledger_seq msg = l) as Heq by lia.
    rewrite Heq, Z.eqb_refl in H1', H2'. simpl in H1', H2'.
    apply Z.ltb_ge in H1', H2'. f_equal; lia.
Qed.

Lemma diagnostics_by_position_witness :
  msg_position proposal_msg = NodeState.latest_ledger_seq node_at_5_2.
Proof.
  destruct (diagnostics_by_position node_at_5_2 user_at_5_2 proposal_msg)
    as (_ & _ & Heq).
  apply Heq; reflexivity.
Defined.

(** X21: messages for a wallet whose stored account is blacklisted change
    nothing in the node's accounts; only the stored position may move. *)
Theorem blacklisted_wallet_frozen (n : NodeState.t) (msg : Message)
    (a : AccountState.t) :
  NodeState.accounts n !! user_wallet msg = Some a ->
  AccountState.is_blacklisted a = true ->
  NodeState.accounts (state_of (NodeState.update n msg).2)
  = NodeState.accounts n
  /\ returns (NodeState.update n msg).2 = true.
Proof.
  intros Hlook Hbl. split.
  - rewrite node_update_accounts. unfold NodeState.account, getitem.
    rewrite Hlook. simpl.
    rewrite (blacklisted_update_returns_self a Hbl). simpl.
    apply insert_id, Hlook.
  - rewrite node_update_unfold. simpl. unfold NodeState.account, getitem.
    simpl. rewrite Hlook. simpl.
    rewrite (blacklisted_update_returns_self a Hbl). reflexivity.
Qed.

Lemma blacklisted_wallet_frozen_witness :
  NodeState.accounts
    (state_of (NodeState.update blacklisting_node request_msg).2)
  = NodeState.accounts blacklisting_node.
Proof.
  destruct (blacklisted_wallet_frozen blacklisting_node request_msg
              blacklisted_account) as [Hacc _].
  - reflexivity.
  - reflexivity.
  - exact Hacc.
Defined.

(** X22: the ordering check has no influence on the accounts: two node
    states with the same accounts end up with the same accounts and the
    same kind of outcome after a message, whatever positions they had
    stored and whatever position the message has. *)
Theorem accounts_ignore_position (accts : gmap string AccountState.t)
    (p p' : position) (l t : Z) (msg : Message) :
  let msg' := mkMessage (scope msg) (direction msg) l t (user_wallet msg)
                (task_id msg) (message_id msg) (raw_data msg) (hash msg)
                (variant msg) in
  NodeState.accounts (state_of (NodeState.update (NodeState.mk accts p) msg).2)
  = NodeState.accounts
      (state_of (NodeState.update (NodeState.mk accts p') msg').2)
  /\ returns (NodeState.update (NodeState.mk accts p) msg).2
     = returns (NodeState.update (NodeState.mk accts p') msg').2.
Proof.
  intros msg'.
  assert (Hacc : forall a, AccountState.update a msg' = AccountState.update a msg).
  { intros a. reflexivity. }
  split.
  - rewrite !node_update_accounts. unfold NodeState.account. simpl.
    rewrite Hacc. reflexivity.
  - rewrite !node_update_unfold. simpl. unfold NodeState.account. simpl.
    rewrite Hacc. destruct (AccountState.update _ msg); reflexivity.
Qed.

Lemma lex_max_cases (p a : position) :
  (lex_lt p a /\ lex_max p a = a) \/ (~ lex_lt p a /\ lex_max p a = p).
Proof.
  unfold lex_max. destruct (lex_ltb p a) eqn:Hlt.
  - left. split; [apply lex_ltb_spec, Hlt|reflexivity].
  - right. split; [|reflexivity].
    intros H. apply lex_ltb_spec in H. congruence.
Qed.

Lemma lex_max_swap (p a b : position) :
  lex_max (lex_max p a) b = lex_max (lex_max p b) a.
Proof.
  destruct (lex_max_cases p a) as [[Hpa ->]|[Hpa ->]];
  destruct (lex_max_cases p b) as [[Hpb ->]|[Hpb ->]];
  try (destruct (lex_max_cases a b) as [[Hab ->]|[Hab ->]]);
  try (destruct (lex_max_cases b a) as [[Hba ->]|[Hba ->]]);
  try (destruct (lex_max_cases p a) as [[Hpa' ->]|[Hpa' ->]]);
  try (destruct (lex_max_cases p b) as [[Hpb' ->]|[Hpb' ->]]);
  try reflexivity;
  destruct p as [p1 p2], a as [a1 a2], b as [b1 b2];
  unfold lex_lt in *; simpl in *; try lia; f_equal; lia.
Qed.

(** X23: updates for different wallets commute: applying two messages with
    different wallets in either order leaves the node state the same,
    accounts and stored position alike (only the printed diagnostics can
    differ). *)
Theorem updates_of_different_wallets_commute (n : NodeState.t)
    (m1 m2 : Message) :
  user_wallet m1 <> user_wallet m2 ->
  state_of (NodeState.update (state_of (NodeState.update n m1).2) m2).2
  = state_of (NodeState.update (state_of (NodeState.update n m2).2) m1).2.
Proof.
  intros Hne.
  assert (Heq : forall a b : NodeState.t,
             NodeState.accounts a = NodeState.accounts b ->
             NodeState.latest_ledger_seq a = NodeState.latest_ledger_seq b ->
             a = b).
  { intros [a1 a2] [b1 b2]. simpl. intros -> ->. reflexivity. }
  apply Heq.
  - rewrite !node_update_accounts. unfold NodeState.account, getitem.
    rewrite !node_update_accounts.
    rewrite !lookup_insert_ne by congruence.
    apply insert_insert_ne. congruence.
  - rewrite !node_update_latest, !advance_ledger_seq_max.
    apply lex_max_swap.
Qed.

Lemma updates_of_different_wallets_commute_witness :
  state_of (NodeState.update
              (state_of (NodeState.update NodeState.init request_msg).2)
              other_wallet_msg).2
  = state_of (NodeState.update
                (state_of (NodeState.update NodeState.init other_wallet_msg).2)
                request_msg).2.
Proof.
  apply (updates_of_different_wallets_commute NodeState.init
           request_msg other_wallet_msg).
  discriminate.
Defined.

(** X24: a [UserState] does not look at the wallet of a message: the same
    message addressed to any other wallet is printed about, applied to the
    single account and ended in the same way. *)
Theorem user_state_ignores_wallet (u : UserState.t) (msg : Message)
    (w : string) :
  UserState.update u (with_user_wallet w msg) = UserState.update u msg.
Proof.
  rewrite !user_update_unfold. reflexivity.
Qed.
